(** * Build-With-AWS: the notebooks' provisioning and RAG glue, embedded in Rocq

    The repository is two notebooks.  [02_Create-Knowledge-Base.ipynb] creates
    a bucket, an OpenSearch Serverless collection and index, downloads the
    documents, and starts and polls an ingestion job.  The RAG notebook
    retrieves passages, builds the prompt and invokes the model.

    Every cell that a property below talks about is translated here as it is
    written: service clients are explicit parameters or an explicit recorded
    state, Python exceptions are the [Raise] case of [result], and [while]
    loops are run with fuel so that a loop that never leaves is visible as one
    that uses up every amount of fuel. *)

From Stdlib Require Import ZArith QArith Lia Ascii String.
From stdpp Require Import base gmap strings list.

Local Open Scope string_scope.
Local Open Scope list_scope.

(** ** Python values and exceptions *)

Module Py.

(** The exceptions the cells can meet.  [ClientError] is botocore's, with the
    service's error code; [RequestError] is opensearch-py's; [URLError] is what
    [urlretrieve] raises when a download fails. *)
Inductive exn : Type :=
| ClientError (code : string)
| RequestError (error : string)
| URLError (reason : string)
| IndexError
| KeyError (key : string)
| TypeError
| ValueError (msg : string).

Inductive result (A : Type) : Type :=
| Return (a : A)
| Raise (e : exn).
Arguments Return {A} a.
Arguments Raise {A} e.

Definition is_Return {A} (r : result A) : bool :=
  match r with Return _ => true | Raise _ => false end.

(** A [while] loop run with fuel: it either left the loop (normally or by an
    exception) or is still inside it when the fuel is used up.  Both cases
    carry the seconds spent in [interactive_sleep] so far. *)
Inductive run (A : Type) : Type :=
| Finished (r : result A) (slept : nat)
| StillPolling (slept : nat).
Arguments Finished {A} r slept.
Arguments StillPolling {A} slept.

(** [l[i]] for a non-negative index. *)
Definition getitem {A} (l : list A) (i : nat) : result A :=
  match l !! i with
  | Some x => Return x
  | None => Raise IndexError
  end.

End Py.
Import Py.

(** ** The recorded cloud: what exists, and which calls were made *)

Module Cloud.

Inductive api_call : Type :=
| HeadBucket (bucket : string)
| CreateBucket (bucket region : string)
| CreateCollection (name type : string)
| IndicesCreate (index : string).

Definition is_creation (c : api_call) : bool :=
  match c with
  | HeadBucket _ => false
  | CreateBucket _ _ | CreateCollection _ _ | IndicesCreate _ => true
  end.

Record cloud : Type := mkCloud {
  buckets : gset string;
  collections : gset string;
  indices : gset string;
  calls : list api_call;       (* every request sent, oldest first *)
  slept : nat                  (* seconds spent in interactive_sleep *)
}.

Definition record (c : api_call) (w : cloud) : cloud :=
  mkCloud (buckets w) (collections w) (indices w) (calls w ++ [c]) (slept w).

(** Cells run in a state-and-exception monad over the cloud: the state
    survives an exception, as the requests already sent stay sent. *)
Definition M (A : Type) : Type := cloud -> result A * cloud.

Definition ret {A} (a : A) : M A := fun w => (Return a, w).
Definition raise {A} (e : exn) : M A := fun w => (Raise e, w).
Definition bind {A B} (m : M A) (k : A -> M B) : M B :=
  fun w => match m w with
           | (Return a, w') => k a w'
           | (Raise e, w') => (Raise e, w')
           end.
(** [try: body except <handled>: handler]: [handler e] is [None] for an
    exception the clause does not name. *)
Definition try_except {A} (body : M A) (handler : exn -> option (M A)) : M A :=
  fun w => match body w with
           | (Return a, w') => (Return a, w')
           | (Raise e, w') =>
               match handler e with
               | Some h => h w'
               | None => (Raise e, w')
               end
           end.

Notation "'let!' x ':=' m 'in' k" := (bind m (fun x => k))
  (at level 10, x name, m at level 100, k at level 200).
Notation "'do!' m 'in' k" := (bind m (fun _ => k))
  (at level 10, m at level 100, k at level 200).

(** *** The services

    An in-memory stand-in for S3, OpenSearch Serverless and the index API:
    each request is recorded, a creation request for something that exists
    is refused with the service's error, and any other one takes effect. *)

Definition head_bucket (b : string) : M unit := fun w =>
  (if decide (b ∈ buckets w) then Return tt else Raise (ClientError "404"),
   record (HeadBucket b) w).

Definition create_bucket (b region : string) : M unit := fun w =>
  let w' := record (CreateBucket b region) w in
  if decide (b ∈ buckets w)
  then (Raise (ClientError "BucketAlreadyOwnedByYou"), w')
  else (Return tt,
        mkCloud ({[b]} ∪ buckets w') (collections w') (indices w') (calls w') (slept w')).

Definition create_collection (name type : string) : M string := fun w =>
  let w' := record (CreateCollection name type) w in
  if decide (name ∈ collections w)
  then (Raise (ClientError "ConflictException"), w')
  else (Return name,
        mkCloud (buckets w') ({[name]} ∪ collections w') (indices w') (calls w') (slept w')).

Definition indices_create (index : string) : M unit := fun w =>
  let w' := record (IndicesCreate index) w in
  if decide (index ∈ indices w)
  then (Raise (RequestError "resource_already_exists_exception"), w')
  else (Return tt,
        mkCloud (buckets w') (collections w') ({[index]} ∪ indices w') (calls w') (slept w')).

Definition interactive_sleep (seconds : nat) : M unit := fun w =>
  (Return tt, mkCloud (buckets w) (collections w) (indices w) (calls w) (slept w + seconds)).

End Cloud.
Import Cloud.

(** ** The knowledge-base notebook (02_Create-Knowledge-Base.ipynb) *)

Module Provisioner.

Section Cells.
(** [create_policies_in_oss] comes from the notebook's [utility] module,
    which is not part of the sources: it is a parameter of the cell that
    calls it. *)
Variable policies : Type.
Variable create_policies_in_oss : string -> string -> M policies.

(** "Check if bucket exists, and if not create S3 bucket". *)
Definition ensure_bucket (bucket_name region_name : string) : M unit :=
  try_except (head_bucket bucket_name)
    (fun e => match e with
              | ClientError _ => Some (create_bucket bucket_name region_name)
              | _ => None
              end).

(** "create security, network and data access policies within OSS", then
    [aoss_client.create_collection(name=vector_store_name,type='VECTORSEARCH')]. *)
Definition create_vector_store (vector_store_name role_arn : string)
  : M (policies * string) :=
  let! p := create_policies_in_oss vector_store_name role_arn in
  let! collection := create_collection vector_store_name "VECTORSEARCH" in
  ret (p, collection).

(** "Create index": the request is sent, and a [RequestError] is printed. *)
Definition create_index (index_name : string) : M unit :=
  try_except (do! indices_create index_name in interactive_sleep 60)
    (fun e => match e with
              | RequestError _ => Some (ret tt)
              | _ => None
              end).

(** The three cells run one after the other, in the notebook's order; an
    exception that leaves a cell stops the run. *)
Definition provision_storage
    (bucket_name region_name vector_store_name role_arn index_name : string)
  : M unit :=
  do! ensure_bucket bucket_name region_name in
  do! create_vector_store vector_store_name role_arn in
  create_index index_name.
End Cells.

(** The creation requests among the calls a cell added to the record. *)
Definition creation_calls (before after : cloud) : list api_call :=
  filter (fun c => is_creation c = true) (drop (length (calls before)) (calls after)).

(** *** Waiting for the collection *)

Module Collection.

Record collection_detail : Type := {
  name : string;
  status : string
}.

(** [response['collectionDetails'][0]['status']] *)
Definition first_status (collectionDetails : list collection_detail) : result string :=
  match getitem collectionDetails 0 with
  | Return d => Return (status d)
  | Raise e => Raise e
  end.

(** The [while] loop of the cell "wait for collection creation".
    [batch_get_collection k] is the answer to the call number [k];
    [response] is the last answer received, [k] the number of calls made. *)
Fixpoint poll (fuel : nat) (batch_get_collection : nat -> result (list collection_detail))
    (k : nat) (response : list collection_detail) (slept : nat)
  : run (list collection_detail) :=
  match first_status response with
  | Raise e => Finished (Raise e) slept
  | Return st =>
      if String.eqb st "CREATING" then
        match fuel with
        | O => StillPolling slept
        | S fuel' =>
            (* interactive_sleep(30), then the next batch_get_collection *)
            match batch_get_collection k with
            | Raise e => Finished (Raise e) (slept + 30)
            | Return response' =>
                poll fuel' batch_get_collection (S k) response' (slept + 30)
            end
        end
      else Finished (Return response) slept
  end.

Definition wait_for_collection (fuel : nat)
    (batch_get_collection : nat -> result (list collection_detail))
  : run (list collection_detail) :=
  match batch_get_collection 0 with
  | Raise e => Finished (Raise e) 0
  | Return response => poll fuel batch_get_collection 1 response 0
  end.

(** The answer keeps the loop going: it is a response whose first
    collection is [CREATING]. *)
Definition is_creating (answer : result (list collection_detail)) : bool :=
  match answer with
  | Return response =>
      match first_status response with
      | Return st => String.eqb st "CREATING"
      | Raise _ => false
      end
  | Raise _ => false
  end.

(** What the cell ends with on an answer that does not keep the loop going. *)
Definition leaves_with (answer : result (list collection_detail))
  : result (list collection_detail) :=
  match answer with
  | Return response =>
      match first_status response with
      | Return _ => Return response
      | Raise e => Raise e
      end
  | Raise e => Raise e
  end.

End Collection.

(** *** Waiting for the ingestion job *)

Module Ingestion.

Record ingestion_job : Type := {
  ingestionJobId : string;
  status : string;
  failureReasons : list string
}.

(** The cell "Get job": [while(job['status']!='COMPLETE')].
    [get_ingestion_job k] is the answer to the call number [k]. *)
Fixpoint poll (fuel : nat) (get_ingestion_job : nat -> result ingestion_job)
    (k : nat) (job : ingestion_job) (slept : nat) : run ingestion_job :=
  if negb (String.eqb (status job) "COMPLETE") then
    match fuel with
    | O => StillPolling slept
    | S fuel' =>
        match get_ingestion_job k with
        | Raise e => Finished (Raise e) slept
        | Return job' => poll fuel' get_ingestion_job (S k) job' (slept + 30)
        end
    end
  else Finished (Return job) slept.

(** [job] is the one [start_ingestion_job] answered with. *)
Definition wait_for_ingestion (fuel : nat) (job : ingestion_job)
    (get_ingestion_job : nat -> result ingestion_job) : run ingestion_job :=
  poll fuel get_ingestion_job 0 job 0.

(** The statuses seen, in order: the started job's, then each answer's. *)
Definition observed (job : ingestion_job)
    (get_ingestion_job : nat -> result ingestion_job) (n : nat) : result ingestion_job :=
  match n with
  | O => Return job
  | S k => get_ingestion_job k
  end.

(** The observation keeps the loop going: a job whose status is not
    [COMPLETE]. *)
Definition is_pending (answer : result ingestion_job) : bool :=
  match answer with
  | Return job => negb (String.eqb (status job) "COMPLETE")
  | Raise _ => false
  end.

End Ingestion.

End Provisioner.

(** ** Downloading and uploading the documents *)

Module Documents.

Definition urls : list string := [
  "https://docs.aws.amazon.com/AWSEC2/latest/UserGuide/ec2-ug.pdf";
  "https://docs.aws.amazon.com/AmazonS3/latest/userguide/s3-userguide.pdf";
  "https://docs.aws.amazon.com/amazondynamodb/latest/developerguide/dynamodb-dg.pdf.pdf";
  "https://docs.aws.amazon.com/AmazonRDS/latest/UserGuide/index.html.pdf";
  "https://docs.aws.amazon.com/AmazonRDS/latest/AuroraUserGuide/aurora-ug.pdf";
  "https://docs.aws.amazon.com/lambda/latest/dg/lambda-dg.pdf";
  "https://docs.aws.amazon.com/vpc/latest/userguide/vpc-ug.pdf";
  "https://docs.aws.amazon.com/athena/latest/ug/athena-ug.pdf";
  "https://docs.aws.amazon.com/apigateway/latest/developerguide/apigateway-dg.pdf";
  "https://docs.aws.amazon.com/bedrock/latest/userguide/bedrock-ug.pdf";
  "https://docs.aws.amazon.com/AmazonCloudFront/latest/DeveloperGuide/AmazonCloudFront_DevGuide.pdf";
  "https://docs.aws.amazon.com/AmazonCloudWatch/latest/monitoring/acw-ug.pdf";
  "https://docs.aws.amazon.com/codewhisperer/latest/userguide/user-guide.pdf";
  "https://docs.aws.amazon.com/cognito/latest/developerguide/cognito-dg.pdf#cognito-user-identity-pools";
  "https://docs.aws.amazon.com/documentdb/latest/developerguide/developerguide.pdf";
  "https://docs.aws.amazon.com/pdfs/neptune/latest/userguide/neptune-ug.pdf#intro"
].

(** The last two literals of the source have no comma between them: Python
    reads adjacent string literals as one string. *)
Definition filenames : list string := [
  "AmazonEC2UserGuide.pdf";
  "AmazonS3UserGuide.pdf";
  "AmazonDynamodbDeveloperGuide.pdf";
  "AmazonAuroraUserGuide.pdf";
  "AmazonLambda.pdf";
  "AmazonVPC.pdf";
  "AmazonAthena.pdf";
  "AmazonAPIGateway.pdf";
  "AmazonBedrock.pdf";
  "AmazonCloudFront.pdf";
  "AmazonCloudWatch.pdf";
  "Amazoncodewhisperer.pdf";
  "Amazoncognito.pdf";
  "Amazondocumentdb.pdf" +:+ "neptune.pdf"
].

Definition data_root : string := "./data/".

(** The local files, by path, each holding what was downloaded into it. *)
Abbreviation files := (gmap string string).

(** What the loop has done so far: the local files, and the URLs it asked
    for, oldest first. *)
Record disk : Type := mkDisk {
  local : files;
  requested : list string
}.

Section Loop.
(** [urlretrieve url]: the document behind [url], or the exception of a
    failed download. *)
Variable urlretrieve : string -> result string.

(** [for idx, url in enumerate(urls)], from index [idx] on. *)
Fixpoint download_from (idx : nat) (rest : list string) (d : disk)
  : result unit * disk :=
  match rest with
  | [] => (Return tt, d)
  | url :: rest' =>
      match getitem filenames idx with
      | Raise e => (Raise e, d)
      | Return filename =>
          let file_path := data_root +:+ filename in
          match urlretrieve url with
          | Raise e => (Raise e, mkDisk (local d) (requested d ++ [url]))
          | Return document =>
              download_from (S idx) rest'
                (mkDisk (<[file_path := document]> (local d)) (requested d ++ [url]))
          end
      end
  end.

Definition download_documents (d : disk) : result unit * disk :=
  download_from 0 urls d.
End Loop.

(** [os.path.basename]: what follows the last slash. *)
Fixpoint basename_from (acc : string) (path : string) : string :=
  match path with
  | EmptyString => acc
  | String c rest =>
      if Ascii.eqb c "/"%char then basename_from "" rest
      else basename_from (acc +:+ String c "") rest
  end.
Definition basename (path : string) : string := basename_from "" path.

(** *** The upload

    [os.walk(path)] lists the directory it is given and the directories
    below it, and the code names each file it finds by [os.path.join(root,
    file)].  A file found that way is spelled as the given path, a slash
    when the path does not end in one, and the names on the way down
    separated by single slashes.  The disk holds each file under the
    spelling the loop gave it, so these are the files the walk reaches.  An
    empty path is no directory: the walk lists nothing. *)
Fixpoint ends_with_slash (s : string) : bool :=
  match s with
  | EmptyString => false
  | String c rest =>
      match rest with
      | EmptyString => Ascii.eqb c "/"%char
      | String _ _ => ends_with_slash rest
      end
  end.

(** [os.path.join(root, "")]: the directory, ready for a name. *)
Definition walk_prefix (path : string) : string :=
  if ends_with_slash path then path else path +:+ "/".

Fixpoint strip_prefix (pre s : string) : option string :=
  match pre with
  | EmptyString => Some s
  | String a pre' =>
      match s with
      | EmptyString => None
      | String b s' => if Ascii.eqb a b then strip_prefix pre' s' else None
      end
  end.

(** The names of a relative path, split at its slashes. *)
Fixpoint names_from (name : string) (rest : string) : list string :=
  match rest with
  | EmptyString => [name]
  | String c rest' =>
      if Ascii.eqb c "/"%char then name :: names_from "" rest'
      else names_from (name +:+ String c "") rest'
  end.
Definition names (relative : string) : list string := names_from "" relative.

(** A name that a directory listing can hold. *)
Definition is_entry_name (name : string) : bool :=
  negb (String.eqb name "") && negb (String.eqb name ".") && negb (String.eqb name "..").

(** [os.walk(path)] reaches the file spelled [p]. *)
Definition walked (path p : string) : bool :=
  negb (String.eqb path "")
  && match strip_prefix (walk_prefix path) p with
     | Some relative => forallb is_entry_name (names relative)
     | None => false
     end.

(** [uploadDirectory(path, bucket_name)]: every file the walk reaches is put
    into the bucket under its own name, the last part of its path.  The
    bucket here takes every upload.  Which of two files with the same name
    in different directories is put last is left to the order of the
    fold. *)
Definition uploadDirectory (path : string) (fs : files) (bucket : files) : files :=
  foldr (fun entry objects =>
           if walked path entry.1
           then <[basename entry.1 := entry.2]> objects
           else objects)
        bucket (map_to_list fs).

End Documents.

(** ** The data source and its chunking policy *)

Module DataSource.

Record fixedSizeChunking : Type := {
  maxTokens : Z;
  overlapPercentage : Z
}.

Record chunkingConfiguration : Type := {
  chunkingStrategy : string;
  fixedSizeChunkingConfiguration : fixedSizeChunking
}.

Definition chunkingStrategyConfiguration : chunkingConfiguration := {|
  chunkingStrategy := "FIXED_SIZE";
  fixedSizeChunkingConfiguration := {| maxTokens := 512; overlapPercentage := 20 |}
|}.

Record data_source_request : Type := {
  name : string;
  description : string;
  knowledgeBaseId : string;
  dataSourceType : string;
  bucketArn : string;
  chunking : chunkingConfiguration
}.

(** The request of the cell "Create a DataSource in KnowledgeBase". *)
Definition create_data_source_request (name description kb_id bucket_name : string)
  : data_source_request := {|
  name := name;
  description := description;
  knowledgeBaseId := kb_id;
  dataSourceType := "S3";
  bucketArn := "arn:aws:s3:::" +:+ bucket_name;
  chunking := chunkingStrategyConfiguration
|}.

(** The share of a chunk repeated in the next one. *)
Definition overlap_fraction (c : chunkingConfiguration) : Q :=
  overlapPercentage (fixedSizeChunkingConfiguration c) # 100.

Definition max_size (c : chunkingConfiguration) : Z :=
  maxTokens (fixedSizeChunkingConfiguration c).

Definition chunking_invariant (c : chunkingConfiguration) : Prop :=
  (0 <= overlap_fraction c)%Q /\ (overlap_fraction c < 1)%Q /\ (0 < max_size c)%Z.

Definition chunking_invariantb (c : chunkingConfiguration) : bool :=
  Qle_bool 0 (overlap_fraction c)
  && negb (Qle_bool 1 (overlap_fraction c))
  && (0 <? max_size c)%Z.

End DataSource.

(** ** Python strings: [repr], [str] of a list, and [str.format]

    A Python [str] is modelled as a Rocq [string] whose characters are the
    code points below 256. *)

Module PyStr.

Definition squote : ascii := "039"%char.
Definition dquote : ascii := "034"%char.
Definition backslash : ascii := "092"%char.
Definition tab : ascii := "009"%char.
Definition newline : ascii := "010"%char.
Definition creturn : ascii := "013"%char.
Definition lbrace : ascii := "{"%char.
Definition rbrace : ascii := "}"%char.

Definition nl : string := String newline "".

Fixpoint contains_char (c : ascii) (s : string) : bool :=
  match s with
  | EmptyString => false
  | String d rest => Ascii.eqb d c || contains_char c rest
  end.

Definition hexdigit (n : nat) : ascii :=
  match n with
  | 0 => "0" | 1 => "1" | 2 => "2" | 3 => "3" | 4 => "4"
  | 5 => "5" | 6 => "6" | 7 => "7" | 8 => "8" | 9 => "9"
  | 10 => "a" | 11 => "b" | 12 => "c" | 13 => "d" | 14 => "e"
  | _ => "f"
  end%char.

(** [\xhh] *)
Definition hex_escape (n : nat) : string :=
  String backslash (String "x" (String (hexdigit (n / 16)) (String (hexdigit (n mod 16)) ""))).

(** [str.isprintable] on the code points from 128 to 255: the C1 controls,
    the no-break space and the soft hyphen are not printable. *)
Definition latin1_printable (n : nat) : bool :=
  ((161 <=? n) && negb (n =? 173))%nat.

(** One character of [repr(s)], where [quote] is the quote chosen for [s]. *)
Definition repr_char (quote c : ascii) : string :=
  let n := nat_of_ascii c in
  if Ascii.eqb c quote || Ascii.eqb c backslash then String backslash (String c "")
  else if Ascii.eqb c tab then String backslash "t"
  else if Ascii.eqb c newline then String backslash "n"
  else if Ascii.eqb c creturn then String backslash "r"
  else if ((n <? 32) || (n =? 127))%nat then hex_escape n
  else if (n <? 127)%nat then String c ""
  else if negb (latin1_printable n) then hex_escape n
  else String c "".

Fixpoint repr_chars (quote : ascii) (s : string) : string :=
  match s with
  | EmptyString => ""
  | String c rest => repr_char quote c +:+ repr_chars quote rest
  end.

(** Double quotes are used only for a string with a single quote and no
    double quote. *)
Definition repr_quote (s : string) : ascii :=
  if contains_char squote s && negb (contains_char dquote s) then dquote else squote.

(** [repr(s)] for a [str]. *)
Definition py_repr (s : string) : string :=
  let q := repr_quote s in
  String q (repr_chars q s +:+ String q "").

(** [str(l)] for a list of [str]: the [repr] of each element. *)
Definition py_str_list (l : list string) : string :=
  "[" +:+ String.concat ", " (map py_repr l) +:+ "]".

(** *** [str.format]

    The format string is read as CPython's [MarkupIterator] and
    [parse_field] read it: literal text with doubled braces, and replacement
    fields with their name, conversion and format spec.  Every error of that
    reading, and every error of looking the field's argument up, is the one
    CPython raises.  A field whose name is empty, a number or a keyword is
    rendered; for a field with a conversion ([!]), a format spec ([:]), an
    attribute ([.]) or an index ([[]) the lookup is done and the rendering is
    outside this model: the result is [None] from there on. *)

Inductive an_state : Type := ANS_INIT | ANS_AUTO | ANS_MANUAL.

Record auto_number : Type := mkAuto {
  state : an_state;
  field_number : nat
}.

Definition PY_SSIZE_T_MAX : Z := 2 ^ 63 - 1.

Definition decimal_value (c : ascii) : option Z :=
  let n := nat_of_ascii c in
  if ((48 <=? n) && (n <=? 57))%nat then Some (Z.of_nat (n - 48)) else None.

Inductive integer_result : Type :=
| NotAnInteger
| TooManyDigits
| Index (i : Z).

Fixpoint get_integer_from (accumulator : Z) (s : string) : integer_result :=
  match s with
  | EmptyString => Index accumulator
  | String c rest =>
      match decimal_value c with
      | None => NotAnInteger
      | Some digitval =>
          if (accumulator >? (PY_SSIZE_T_MAX - digitval) / 10)%Z then TooManyDigits
          else get_integer_from (accumulator * 10 + digitval) rest
      end
  end.

Definition get_integer (s : string) : integer_result :=
  match s with
  | EmptyString => NotAnInteger
  | _ => get_integer_from 0 s
  end.

Section Format.
(** Positional and keyword arguments, each already rendered with the empty
    format spec ([str] of the value). *)
Variable args : list string.
Variable kwargs : gmap string string.

(** The value of the field named [field_name], and the numbering state
    after it. *)
Definition get_field (field_name : string) (an : auto_number)
  : result (string * auto_number) :=
  match get_integer field_name with
  | TooManyDigits => Raise (ValueError "Too many decimal digits in format string")
  | NotAnInteger =>
      match field_name with
      | EmptyString =>
          (* automatic numbering *)
          match state an with
          | ANS_MANUAL =>
              Raise (ValueError
                "cannot switch from manual field specification to automatic field numbering")
          | _ =>
              match args !! field_number an with
              | Some v => Return (v, mkAuto ANS_AUTO (S (field_number an)))
              | None => Raise IndexError
              end
          end
      | _ =>
          match kwargs !! field_name with
          | Some v => Return (v, an)
          | None => Raise (KeyError field_name)
          end
      end
  | Index i =>
      match state an with
      | ANS_AUTO =>
          Raise (ValueError
            "cannot switch from automatic field numbering to manual field specification")
      | _ =>
          match (if (i <? Z.of_nat (length args))%Z then args !! Z.to_nat i else None) with
          | Some v => Return (v, mkAuto ANS_MANUAL (field_number an))
          | None => Raise IndexError
          end
      end
  end.

Definition emit (text : string) (rest : option (result string)) : option (result string) :=
  match rest with
  | Some (Return out) => Some (Return (text +:+ out))
  | other => other
  end.

(** The part of a field name before its first [.] or [[]. *)
Fixpoint first_part (field_name : string) : string :=
  match field_name with
  | EmptyString => ""
  | String c rest =>
      if Ascii.eqb c "." || Ascii.eqb c "[" then "" else String c (first_part rest)
  end.

(** A parsed field: its argument is looked up, and rendered when the field
    is a plain one; [continue] formats what follows the field. *)
Definition output_markup (field_name : string) (plain : bool) (an : auto_number)
    (continue : auto_number -> option (result string)) : option (result string) :=
  match get_field (first_part field_name) an with
  | Raise e => Some (Raise e)
  | Return (value, an') =>
      if plain && negb (contains_char "." field_name || contains_char "[" field_name)
      then emit value (continue an')
      else None
  end.

(** [format_literal] reads literal text; [format_field] reads a field name
    after the opening brace, [format_index] the inside of [[...]] in it,
    [format_conversion] what follows [!], and [format_spec] a format spec,
    counting braces. *)
Fixpoint format_literal (s : string) (an : auto_number) : option (result string) :=
  match s with
  | EmptyString => Some (Return "")
  | String c rest =>
      if Ascii.eqb c lbrace then
        match rest with
        | EmptyString => Some (Raise (ValueError "Single '{' encountered in format string"))
        | String c' rest' =>
            if Ascii.eqb c' lbrace then emit (String lbrace "") (format_literal rest' an)
            else format_field rest an ""
        end
      else if Ascii.eqb c rbrace then
        match rest with
        | EmptyString => Some (Raise (ValueError "Single '}' encountered in format string"))
        | String c' rest' =>
            if Ascii.eqb c' rbrace then emit (String rbrace "") (format_literal rest' an)
            else Some (Raise (ValueError "Single '}' encountered in format string"))
        end
      else emit (String c "") (format_literal rest an)
  end
with format_field (s : string) (an : auto_number) (field_name : string)
  : option (result string) :=
  match s with
  | EmptyString => Some (Raise (ValueError "expected '}' before end of string"))
  | String c rest =>
      if Ascii.eqb c lbrace then Some (Raise (ValueError "unexpected '{' in field name"))
      else if Ascii.eqb c "[" then format_index rest an (field_name +:+ "[")
      else if Ascii.eqb c rbrace then
        output_markup field_name true an (fun an' => format_literal rest an')
      else if Ascii.eqb c ":" then format_spec rest an field_name 0
      else if Ascii.eqb c "!" then format_conversion rest an field_name
      else format_field rest an (field_name +:+ String c "")
  end
with format_index (s : string) (an : auto_number) (field_name : string)
  : option (result string) :=
  match s with
  | EmptyString => Some (Raise (ValueError "expected '}' before end of string"))
  | String c rest =>
      if Ascii.eqb c "]" then format_field rest an (field_name +:+ "]")
      else format_index rest an (field_name +:+ String c "")
  end
with format_conversion (s : string) (an : auto_number) (field_name : string)
  : option (result string) :=
  match s with
  | EmptyString =>
      Some (Raise (ValueError "end of string while looking for conversion specifier"))
  | String conversion rest =>
      match rest with
      | EmptyString => Some (Raise (ValueError "unmatched '{' in format spec"))
      | String c rest' =>
          if Ascii.eqb c rbrace then
            output_markup field_name false an (fun an' => format_literal rest' an')
          else if Ascii.eqb c ":" then format_spec rest' an field_name 0
          else Some (Raise (ValueError "expected ':' after conversion specifier"))
      end
  end
with format_spec (s : string) (an : auto_number) (field_name : string) (nested : nat)
  : option (result string) :=
  (* [nested] is CPython's [count - 1]: the braces opened inside the spec *)
  match s with
  | EmptyString => Some (Raise (ValueError "unmatched '{' in format spec"))
  | String c rest =>
      if Ascii.eqb c lbrace then format_spec rest an field_name (S nested)
      else if Ascii.eqb c rbrace then
        match nested with
        | O => output_markup field_name false an (fun an' => format_literal rest an')
        | S nested' => format_spec rest an field_name nested'
        end
      else format_spec rest an field_name nested
  end.

Definition py_format (s : string) : option (result string) :=
  format_literal s (mkAuto ANS_INIT 0).
End Format.

(** *** Searching a string *)

Fixpoint has_brace (s : string) : bool :=
  match s with
  | EmptyString => false
  | String c rest => Ascii.eqb c lbrace || Ascii.eqb c rbrace || has_brace rest
  end.

(** [p in s] *)
Fixpoint substringb (p s : string) : bool :=
  String.prefix p s ||
  match s with
  | EmptyString => false
  | String _ rest => substringb p rest
  end.

(** [s.count(p)] with overlapping occurrences counted: the number of
    positions of [s] at which [p] starts. *)
Fixpoint occurrences (p s : string) : nat :=
  (if String.prefix p s then 1 else 0) +
  match s with
  | EmptyString => 0
  | String _ rest => occurrences p rest
  end.

(** [s.find(p)] *)
Fixpoint find_from (pos : nat) (p s : string) : option nat :=
  if String.prefix p s then Some pos
  else match s with
       | EmptyString => None
       | String _ rest => find_from (S pos) p rest
       end.
Definition find (p s : string) : option nat := find_from 0 p s.

(** The strings of [ps] occur in [s] one after the other, without overlap. *)
Inductive in_order : list string -> string -> Prop :=
| in_order_nil s : in_order [] s
| in_order_cons p ps gap rest :
    in_order ps rest -> in_order (p :: ps) (gap +:+ p +:+ rest).

(** A character that [repr] copies as it is inside single quotes: printable,
    and neither a single quote nor a backslash. *)
Definition plain_char (c : ascii) : bool :=
  let n := nat_of_ascii c in
  negb (Ascii.eqb c squote) && negb (Ascii.eqb c backslash)
  && (((32 <=? n) && (n <? 127))%nat || latin1_printable n).

Fixpoint is_plain (s : string) : bool :=
  match s with
  | EmptyString => true
  | String c rest => plain_char c && is_plain rest
  end.

(** No character of [s] is read as markup inside a replacement field. *)
Definition no_markup (s : string) : bool :=
  negb (contains_char lbrace s || contains_char rbrace s
        || contains_char "[" s || contains_char "]" s
        || contains_char ":" s || contains_char "!" s
        || contains_char "." s).

(** A keyword that can stand in a replacement field as it is: not empty, not
    a number, and without markup. *)
Definition is_keyword (field_name : string) : bool :=
  negb (String.eqb field_name "")
  && match get_integer field_name with NotAnInteger => true | _ => false end
  && no_markup field_name.

End PyStr.

(** ** The RAG notebook *)

Module Rag.
Import PyStr.

(** *** Retrieval *)

Record retrieve_request : Type := {
  retrievalQuery_text : string;
  knowledgeBaseId : string;
  numberOfResults : Z;
  overrideSearchType : string
}.

Record retrieval_result : Type := {
  content_text : string;      (* retrievedResult['content']['text'] *)
  location_uri : string;
  score : Q
}.

Record retrieve_response : Type := {
  retrievalResults : list retrieval_result
}.

(** The agent runtime client: the service behind it answers a request or
    raises, and the client keeps the requests it sent. *)
Definition agent_client : Type := list retrieve_request.

Section Retrieve.
Variable service : retrieve_request -> result retrieve_response.

Definition client_retrieve (request : retrieve_request) (sent : agent_client)
  : result retrieve_response * agent_client :=
  (service request, (sent ++ [request])%list).

(** [def retrieve(query, kbId, numberOfResults=5)] *)
Definition retrieve (query kbId : string) (numberOfResults : Z) (sent : agent_client)
  : result retrieve_response * agent_client :=
  client_retrieve {|
    retrievalQuery_text := query;
    knowledgeBaseId := kbId;
    numberOfResults := numberOfResults;
    overrideSearchType := "HYBRID"
  |} sent.

Definition retrieve_default (query kbId : string) (sent : agent_client)
  : result retrieve_response * agent_client :=
  retrieve query kbId 5 sent.

(** [response = retrieve(query, kb_id, n)] followed by
    [retrievalResults = response['retrievalResults']]. *)
Definition retrieved_passages (query kbId : string) (numberOfResults : Z)
    (sent : agent_client) : result (list retrieval_result) * agent_client :=
  match retrieve query kbId numberOfResults sent with
  | (Return response, sent') => (Return (retrievalResults response), sent')
  | (Raise e, sent') => (Raise e, sent')
  end.
End Retrieve.

(** The retrieval configuration handed to LangChain's
    [AmazonKnowledgeBasesRetriever]. *)
Record vectorSearchConfiguration : Type := {
  vs_numberOfResults : Z;
  vs_overrideSearchType : string
}.
Definition langchain_retrieval_config : vectorSearchConfiguration := {|
  vs_numberOfResults := 4;
  vs_overrideSearchType := "SEMANTIC"
|}.

(** The search modes of the service, and the one a request asks for. *)
Inductive search_mode : Type := AUTO | SEMANTIC | HYBRID.

Definition search_mode_eqb (a b : search_mode) : bool :=
  match a, b with
  | AUTO, AUTO | SEMANTIC, SEMANTIC | HYBRID, HYBRID => true
  | _, _ => false
  end.

Definition mode_of_override (overrideSearchType : string) : option search_mode :=
  if String.eqb overrideSearchType "HYBRID" then Some HYBRID
  else if String.eqb overrideSearchType "SEMANTIC" then Some SEMANTIC
  else None.

(** [get_contexts]: the loop appends each result's text. *)
Definition get_contexts (retrievalResults : list retrieval_result) : list string :=
  fold_left (fun contexts retrievedResult => (contexts ++ [content_text retrievedResult])%list)
            retrievalResults [].

(** *** The prompt *)

Definition instructions : string :=
  "Human: Analyze the requirement in query to briefly introduce and suggest relevant AWS Products, AWS services and Amazon services. Write a step-by-step usage of Relevant AWS Services based on the project. Suggest blogs and relevant resources from AWS to support the user to work with Relevant AWS Services and How I can use these AWS Services in my project?".

Definition closing : string :=
  "The response should be specific and use statistics or numbers when possible.".

Definition before_context : string :=
  nl +:+ instructions +:+ nl +:+ "<context>" +:+ nl.
Definition before_question : string :=
  nl +:+ "</context>" +:+ nl +:+ nl +:+ "<question>" +:+ nl.
Definition after_question : string :=
  nl +:+ "</question>" +:+ nl +:+ nl +:+ closing +:+ nl +:+ nl +:+ "Assistant:".

(** The f-string of the notebook: literal text and the two replacement
    fields [{contexts}] and [{query}]. *)
Inductive fstring_part : Type :=
| Literal (text : string)
| Contexts
| Query.

Definition prompt_parts : list fstring_part :=
  [Literal before_context; Contexts; Literal before_question; Query; Literal after_question].

(** A replacement field is [format(value, '')]: [str] of the list, and the
    query itself. *)
Definition render_part (contexts : list string) (query : string) (p : fstring_part) : string :=
  match p with
  | Literal text => text
  | Contexts => py_str_list contexts
  | Query => query
  end.

Definition render_parts (contexts : list string) (query : string) (parts : list fstring_part)
  : string :=
  foldr (fun p rest => render_part contexts query p +:+ rest) "" parts.

Definition prompt (contexts : list string) (query : string) : string :=
  render_parts contexts query prompt_parts.

Definition is_query (p : fstring_part) : bool :=
  match p with Query => true | _ => false end.
Definition is_contexts (p : fstring_part) : bool :=
  match p with Contexts => true | _ => false end.

(** The template of the LangChain prompt: the same text with the named
    placeholders [{context}] and [{question}]. *)
Definition PROMPT_TEMPLATE : string :=
  before_context +:+ "{context}" +:+ before_question +:+ "{question}" +:+ after_question.

(** *** Generation *)

Record payload : Type := {
  anthropic_version : string;
  max_tokens : Z;
  message_text : string;      (* messages[0]['content'][0]['text'] *)
  temperature : Q;
  top_p : Z
}.

Record content_block : Type := {
  block_type : string;
  text : option string        (* the block's 'text', when it has one *)
}.

Record response_body : Type := {
  content : option (list content_block)   (* response_body.get('content') *)
}.

(** [prompt.format(contexts, query)] *)
Definition message_of (contexts : list string) (query : string) : option (result string) :=
  py_format [py_str_list contexts; query] ∅ (prompt contexts query).

Definition sonnet_payload (text : string) : payload := {|
  anthropic_version := "bedrock-2023-05-31";
  max_tokens := 512;
  message_text := text;
  temperature := 1 # 2;
  top_p := 1
|}.

(** [response_body.get('content')[0]['text']] *)
Definition response_text (body : response_body) : result string :=
  match content body with
  | None => Raise TypeError
  | Some blocks =>
      match getitem blocks 0 with
      | Raise e => Raise e
      | Return block =>
          match text block with
          | Some t => Return t
          | None => Raise (KeyError "text")
          end
      end
  end.

Section Generate.
(** The runtime client: [service k body] is how the call number [k] is
    answered; the client's state is the number of calls made. *)
Variable service : nat -> payload -> result response_body.

Definition invoke_model (body : payload) (calls : nat) : result response_body * nat :=
  (service calls body, S calls).

(** The cell that invokes the model and reads the answer's text. *)
Definition generate (body : payload) (calls : nat) : result string * nat :=
  match invoke_model body calls with
  | (Return response, calls') => (response_text response, calls')
  | (Raise e, calls') => (Raise e, calls')
  end.

(** The payload cell and the invocation cell together: [None] when the
    format string is outside the model of [str.format]. *)
Definition generation_step (contexts : list string) (query : string) (calls : nat)
  : option (result string * nat) :=
  match message_of contexts query with
  | None => None
  | Some (Raise e) => Some (Raise e, calls)
  | Some (Return text) => Some (generate (sonnet_payload text) calls)
  end.
End Generate.

End Rag.

(** ** Stub services used to run the cells on concrete inputs *)

Module Stubs.
Import Provisioner.

(** A cloud in which the bucket, the collection and the index all exist. *)
Definition everything_exists : cloud := {|
  buckets := {["bedrock-kb-us-west-2-123456789012"]};
  collections := {["bedrock-sample-rag-200"]};
  indices := {["bedrock-sample-index-200"]};
  calls := [];
  slept := 0
|}.

Definition nothing_exists : cloud := {|
  buckets := ∅; collections := ∅; indices := ∅; calls := []; slept := 0
|}.

(** A policy helper that succeeds and sends nothing of its own. *)
Definition policies_ok (vector_store_name role_arn : string) : M unit := ret tt.

(** The cloud after the three cells have run once on an empty one. *)
Definition after_first_run : cloud :=
  (provision_storage unit policies_ok
     "bedrock-kb-us-west-2-123456789012" "us-west-2" "bedrock-sample-rag-200" "role"
     "bedrock-sample-index-200" nothing_exists).2.

Definition detail (st : string) : Collection.collection_detail :=
  {| Collection.name := "bedrock-sample-rag-200"; Collection.status := st |}.

(** The collection never leaves [CREATING]. *)
Definition never_active (k : nat) : result (list Collection.collection_detail) :=
  Return [detail "CREATING"].

(** The collection is [ACTIVE] from the fourth answer on. *)
Definition active_after_three (k : nat) : result (list Collection.collection_detail) :=
  if (k <? 3)%nat then Return [detail "CREATING"] else Return [detail "ACTIVE"].

Definition job (st : string) (reasons : list string) : Ingestion.ingestion_job :=
  {| Ingestion.ingestionJobId := "JOB1"; Ingestion.status := st;
     Ingestion.failureReasons := reasons |}.

(** The job is [IN_PROGRESS] once and [FAILED] ever after. *)
Definition job_fails (k : nat) : result Ingestion.ingestion_job :=
  match k with
  | O => Return (job "IN_PROGRESS" [])
  | S _ => Return (job "FAILED" ["Encountered error: access denied to the bucket"])
  end.

(** The job is [IN_PROGRESS] twice and then [COMPLETE]. *)
Definition job_completes (k : nat) : result Ingestion.ingestion_job :=
  if (k <? 2)%nat then Return (job "IN_PROGRESS" []) else Return (job "COMPLETE" []).

(** *** The RAG notebook's services *)

Definition passage (t : string) (s : Q) : Rag.retrieval_result :=
  {| Rag.content_text := t; Rag.location_uri := "s3://bedrock-kb/" +:+ t; Rag.score := s |}.

(** A retrieval service that answers every request with the same three
    passages, scored 0.9, 0.7 and 0.5. *)
Definition three_passages (request : Rag.retrieve_request) : result Rag.retrieve_response :=
  Return {| Rag.retrievalResults :=
              [passage "P1" (9 # 10); passage "P2" (7 # 10); passage "P3" (5 # 10)] |}.

Definition no_passages (request : Rag.retrieve_request) : result Rag.retrieve_response :=
  Return {| Rag.retrievalResults := [] |}.

Definition answer (t : string) : Rag.response_body :=
  {| Rag.content := Some [ {| Rag.block_type := "text"; Rag.text := Some t |} ] |}.

(** A generation service that answers every call. *)
Definition answers_at_once (k : nat) (body : Rag.payload) : result Rag.response_body :=
  Return (answer "Use Amazon DynamoDB.").

(** A passage of two lines. *)
Definition two_lines : string := "line one" +:+ PyStr.nl +:+ "line two".

(** Every download succeeds; the document is tagged with its URL. *)
Definition every_download_succeeds (url : string) : result string :=
  Return ("document at " +:+ url).

(** The third download fails, every other one succeeds. *)
Definition third_download_fails (url : string) : result string :=
  if bool_decide (Documents.urls !! 2 = Some url) then Raise (URLError "timed out")
  else Return ("document at " +:+ url).

Definition empty_disk : Documents.disk := Documents.mkDisk ∅ [].

End Stubs.

(** ** What is asked of the policy helper *)

Module PolicyHelper.

(** The helper returns, and leaves buckets, collections and indices as they
    are (it creates policies only). *)
Definition keeps_storage {policies : Type}
    (create_policies_in_oss : string -> string -> M policies) (name role : string) : Prop :=
  forall w, exists p w',
    create_policies_in_oss name role w = (Return p, w')
    /\ buckets w' = buckets w /\ collections w' = collections w /\ indices w' = indices w.

End PolicyHelper.

(** ** The cells that create and read the knowledge base *)

Module KnowledgeBase.

(** What stops a cell: a name that is not bound in the kernel, or an
    exception of a service that nothing catches. *)
Inductive stop : Type :=
| NameError (name : string)
| Uncaught (e : exn).

Section Cells.
(** [create_kb_response["knowledgeBase"]], with its [knowledgeBaseId]. *)
Variable knowledge_base : Type.
Variable knowledgeBaseId : knowledge_base -> string.

(** The two names of the kernel the cells use.  [create_knowledge_base_func]
    is [None] while no code cell has defined it (in the notebook its [def]
    stands in a markdown cell), and else what calling it gives; [kb] is
    [None] until a run has bound it. *)
Record kernel : Type := mkKernel {
  create_knowledge_base_func : option (result knowledge_base);
  kb : option knowledge_base
}.

(** [try: kb = create_knowledge_base_func()] / [except Exception as err:]
    print, and then [pp.pprint(kb)]. *)
Definition create_kb_cell (k : kernel) : kernel * option stop :=
  let kb' := match create_knowledge_base_func k with
             | Some (Return created) => Some created
             | Some (Raise _) => kb k
             | None => kb k
             end in
  (mkKernel (create_knowledge_base_func k) kb',
   match kb' with
   | Some _ => None
   | None => Some (NameError "kb")
   end).

(** [bedrock_agent_client.get_knowledge_base(knowledgeBaseId = kb['knowledgeBaseId'])] *)
Definition get_kb_cell (get_knowledge_base : string -> result unit) (k : kernel)
  : option stop :=
  match kb k with
  | None => Some (NameError "kb")
  | Some bound =>
      match get_knowledge_base (knowledgeBaseId bound) with
      | Return _ => None
      | Raise e => Some (Uncaught e)
      end
  end.

(** The request of the data source cell, built from [kb['knowledgeBaseId']]. *)
Definition data_source_cell_request (name description bucket_name : string) (k : kernel)
  : DataSource.data_source_request + stop :=
  match kb k with
  | None => inr (NameError "kb")
  | Some bound =>
      inl (DataSource.create_data_source_request name description
             (knowledgeBaseId bound) bucket_name)
  end.
End Cells.

End KnowledgeBase.

(** ** The RAG cells, one after the other *)

Module Pipeline.
Import Rag.

(** The two clients: the retrieval requests sent, and the number of model
    invocations made. *)
Record clients : Type := mkClients {
  sent : agent_client;
  invocations : nat
}.

Section Cells.
Variable retrieval : retrieve_request -> result retrieve_response.
Variable generation : nat -> payload -> result response_body.

(** [response = retrieve(query, kb_id, 5)], [retrievalResults],
    [contexts = get_contexts(retrievalResults)], the prompt, the payload and
    the invocation: the code cells of the notebook up to [response_text], in
    their order.  [None] when the format string is outside the model of
    [str.format]. *)
Definition answer (query kb_id : string) (c : clients) : option (result string * clients) :=
  match retrieved_passages retrieval query kb_id 5 (sent c) with
  | (Raise e, sent') => Some (Raise e, mkClients sent' (invocations c))
  | (Return retrievalResults, sent') =>
      let contexts := get_contexts retrievalResults in
      match generation_step generation contexts query (invocations c) with
      | None => None
      | Some (outcome, invocations') => Some (outcome, mkClients sent' invocations')
      end
  end.

(** The same cells with [str.format] taken as it comes:
    [str_format s contexts query] is what [s.format(contexts, query)]
    returns or raises, whatever the markup in [s]. *)
Variable str_format : string -> list string -> string -> result string.

Definition run_cells (query kb_id : string) (c : clients) : result string * clients :=
  match retrieved_passages retrieval query kb_id 5 (sent c) with
  | (Raise e, sent') => (Raise e, mkClients sent' (invocations c))
  | (Return retrievalResults, sent') =>
      let contexts := get_contexts retrievalResults in
      match str_format (prompt contexts query) contexts query with
      | Raise e => (Raise e, mkClients sent' (invocations c))
      | Return text =>
          let (outcome, invocations') :=
            generate generation (sonnet_payload text) (invocations c) in
          (outcome, mkClients sent' invocations')
      end
  end.
End Cells.

(** [str_format] does with the prompt what the model of [str.format] says,
    wherever the model says anything. *)
Definition follows_model (str_format : string -> list string -> string -> result string)
  : Prop :=
  forall contexts query r,
    message_of contexts query = Some r ->
    str_format (prompt contexts query) contexts query = r.

End Pipeline.

(** ** Counting and classifying characters *)

Module Text.

Fixpoint count_char (c : ascii) (s : string) : nat :=
  match s with
  | EmptyString => 0
  | String d rest => (if Ascii.eqb d c then 1 else 0) + count_char c rest
  end.

Definition count_in (c : ascii) (texts : list string) : nat :=
  foldr (fun t n => count_char c t + n) 0 texts.

(** [str.isprintable] for one character. *)
Definition printable_char (c : ascii) : bool :=
  let n := nat_of_ascii c in
  (((32 <=? n) && (n <? 127))%nat || PyStr.latin1_printable n).

Fixpoint all_printable (s : string) : bool :=
  match s with
  | EmptyString => true
  | String c rest => printable_char c && all_printable rest
  end.

End Text.

(** ** More services to run the cells against *)

Module Scenarios.
Import Provisioner.

(** The collection has failed by the second answer. *)
Definition fails_after_one (k : nat) : result (list Collection.collection_detail) :=
  match k with
  | O => Return [Stubs.detail "CREATING"]
  | S _ => Return [Stubs.detail "FAILED"]
  end.

(** The service does not know the knowledge base. *)
Definition unknown_knowledge_base (request : Rag.retrieve_request)
  : result Rag.retrieve_response :=
  Raise (ClientError "ResourceNotFoundException").

(** A stand-in for [str.format] that follows the model where the model says
    something, and renders the field [{0!r}] as CPython does: [repr] of a
    list is its [str]. *)
Definition format_with_repr (s : string) (contexts : list string) (query : string)
  : result string :=
  match PyStr.py_format [PyStr.py_str_list contexts; query] ∅ s with
  | Some r => r
  | None =>
      if String.eqb query "{0!r}"
      then Return (Rag.prompt contexts (PyStr.py_str_list contexts))
      else Raise (ValueError "outside the model")
  end.

(** A kernel in which no cell has defined the function or bound [kb]. *)
Definition fresh_kernel : KnowledgeBase.kernel string := KnowledgeBase.mkKernel string None None.

(** A kernel that still holds the knowledge base of an earlier run, and in
    which creating one is refused. *)
Definition stale_kernel : KnowledgeBase.kernel string :=
  KnowledgeBase.mkKernel string (Some (Raise (ClientError "ConflictException"))) (Some "KBOLD").

(** A cloud in which the bucket and the collection exist and the index does
    not. *)
Definition index_missing : cloud := {|
  buckets := {["bedrock-kb-us-west-2-123456789012"]};
  collections := {["bedrock-sample-rag-200"]};
  indices := ∅;
  calls := [];
  slept := 0
|}.

(** A data directory that holds one file of an earlier run. *)
Definition used_disk : Documents.disk :=
  Documents.mkDisk {["./notes.txt" := "notes"]} [].

End Scenarios.

(** * Properties *)

(** ** Creating the resources *)

Section ProvisionerFacts.
Import Provisioner.
Variable policies : Type.
Variable create_policies_in_oss : string -> string -> M policies.

Lemma ensure_bucket_present bucket region w :
  bucket ∈ buckets w ->
  ensure_bucket bucket region w = (Return tt, record (HeadBucket bucket) w).
Proof.
  intros Hin. unfold ensure_bucket, try_except, head_bucket.
  destruct (decide (bucket ∈ buckets w)) as [_|Hnot]; [reflexivity | contradiction].
Qed.

Lemma ensure_bucket_absent bucket region w :
  bucket ∉ buckets w ->
  ensure_bucket bucket region w =
    (Return tt,
     mkCloud ({[bucket]} ∪ buckets w) (collections w) (indices w)
             (calls w ++ [HeadBucket bucket; CreateBucket bucket region]) (slept w)).
Proof.
  intros Hnot. unfold ensure_bucket, try_except, head_bucket, create_bucket.
  destruct (decide (bucket ∈ buckets w)) as [Hin|_]; [contradiction|].
  cbn. destruct (decide (bucket ∈ buckets w)) as [Hin|_]; [contradiction|].
  cbn. rewrite <- app_assoc. reflexivity.
Qed.

Lemma create_collection_calls name type w :
  calls (create_collection name type w).2 = calls w ++ [CreateCollection name type].
Proof.
  unfold create_collection. destruct (decide (name ∈ collections w)); reflexivity.
Qed.

Lemma create_vector_store_calls name role w p w1 :
  create_policies_in_oss name role w = (Return p, w1) ->
  calls (create_vector_store policies create_policies_in_oss name role w).2
  = calls w1 ++ [CreateCollection name "VECTORSEARCH"].
Proof.
  intros Hp. unfold create_vector_store, bind. rewrite Hp.
  pose proof (create_collection_calls name "VECTORSEARCH" w1) as Hc.
  destruct (create_collection name "VECTORSEARCH" w1) as [[c|e] w2]; exact Hc.
Qed.

Lemma create_index_calls index w :
  calls (create_index index w).2 = calls w ++ [IndicesCreate index]
  /\ (create_index index w).1 = Return tt.
Proof.
  unfold create_index, try_except, bind, indices_create, interactive_sleep.
  destruct (decide (index ∈ indices w)); cbn; split; reflexivity.
Qed.
End ProvisionerFacts.

Lemma creation_calls_app (w w' : cloud) (added : list api_call) :
  calls w' = calls w ++ added ->
  Provisioner.creation_calls w w' = filter (fun c => is_creation c = true) added.
Proof.
  intros Hc. unfold Provisioner.creation_calls. rewrite Hc.
  rewrite drop_app_length. reflexivity.
Qed.

(** C3, as the code has it.  Only the bucket cell looks before it creates:
    when [head_bucket] finds the bucket, no creation request is sent, and
    when it does not, exactly [create_bucket] is sent and the bucket exists
    afterwards.  The collection cell, once the policy helper has returned,
    sends [create_collection] whatever collections exist, and the index cell
    sends its creation request whatever indices exist. *)
Theorem only_the_bucket_is_checked_before_creation
    (policies : Type) (create_policies_in_oss : string -> string -> M policies)
    (bucket region name role index : string) (w : cloud) :
  (bucket ∈ buckets w ->
     Provisioner.ensure_bucket bucket region w = (Return tt, record (HeadBucket bucket) w)
     /\ Provisioner.creation_calls w (Provisioner.ensure_bucket bucket region w).2 = [])
  /\ (bucket ∉ buckets w ->
     (Provisioner.ensure_bucket bucket region w).1 = Return tt
     /\ Provisioner.creation_calls w (Provisioner.ensure_bucket bucket region w).2
        = [CreateBucket bucket region]
     /\ bucket ∈ buckets (Provisioner.ensure_bucket bucket region w).2)
  /\ (forall p w1,
     create_policies_in_oss name role w = (Return p, w1) ->
     calls (Provisioner.create_vector_store policies create_policies_in_oss name role w).2
     = calls w1 ++ [CreateCollection name "VECTORSEARCH"])
  /\ Provisioner.creation_calls w (Provisioner.create_index index w).2 = [IndicesCreate index].
Proof.
  repeat split.
  - apply ensure_bucket_present; assumption.
  - rewrite ensure_bucket_present by assumption.
    apply (creation_calls_app w _ [HeadBucket bucket]). reflexivity.
  - rewrite ensure_bucket_absent by assumption. reflexivity.
  - rewrite ensure_bucket_absent by assumption.
    apply (creation_calls_app w _ [HeadBucket bucket; CreateBucket bucket region]).
    reflexivity.
  - rewrite ensure_bucket_absent by assumption. cbn. set_solver.
  - intros p w1 Hp. eapply create_vector_store_calls; eassumption.
  - apply (creation_calls_app w _ [IndicesCreate index]).
    apply create_index_calls.
Qed.

(** On the stub cloud: no creation call for a bucket that exists, one for a
    bucket that does not, and [create_collection] for a collection that
    exists. *)
Lemma only_the_bucket_is_checked_before_creation_witness :
  Provisioner.creation_calls Stubs.everything_exists
    (Provisioner.ensure_bucket "bedrock-kb-us-west-2-123456789012" "us-west-2"
       Stubs.everything_exists).2 = []
  /\ Provisioner.creation_calls Stubs.nothing_exists
    (Provisioner.ensure_bucket "bedrock-kb-us-west-2-123456789012" "us-west-2"
       Stubs.nothing_exists).2
     = [CreateBucket "bedrock-kb-us-west-2-123456789012" "us-west-2"]
  /\ calls (Provisioner.create_vector_store unit Stubs.policies_ok
              "bedrock-sample-rag-200" "role" Stubs.everything_exists).2
     = [CreateCollection "bedrock-sample-rag-200" "VECTORSEARCH"].
Proof.
  pose proof (only_the_bucket_is_checked_before_creation unit Stubs.policies_ok
                "bedrock-kb-us-west-2-123456789012" "us-west-2"
                "bedrock-sample-rag-200" "role" "bedrock-sample-index-200"
                Stubs.everything_exists) as (Hpresent & _ & Hcollection & _).
  pose proof (only_the_bucket_is_checked_before_creation unit Stubs.policies_ok
                "bedrock-kb-us-west-2-123456789012" "us-west-2"
                "bedrock-sample-rag-200" "role" "bedrock-sample-index-200"
                Stubs.nothing_exists) as (_ & Habsent & _).
  split; [|split].
  - apply Hpresent. vm_compute. reflexivity.
  - apply Habsent. cbn. apply not_elem_of_empty.
  - apply (Hcollection tt Stubs.everything_exists). reflexivity.
Defined.

(** C3 as stated fails: run once on an empty cloud, the cells create the
    bucket, the collection and the index; run a second time on the cloud the
    first run left, they send no [create_bucket] but do send
    [create_collection] again, which the service refuses. *)
Lemma second_run_sends_create_collection :
  Provisioner.creation_calls Stubs.nothing_exists Stubs.after_first_run
  = [CreateBucket "bedrock-kb-us-west-2-123456789012" "us-west-2";
     CreateCollection "bedrock-sample-rag-200" "VECTORSEARCH";
     IndicesCreate "bedrock-sample-index-200"]
  /\ (Provisioner.provision_storage unit Stubs.policies_ok
        "bedrock-kb-us-west-2-123456789012" "us-west-2" "bedrock-sample-rag-200" "role"
        "bedrock-sample-index-200" Stubs.after_first_run).1
     = Raise (ClientError "ConflictException")
  /\ Provisioner.creation_calls Stubs.after_first_run
       (Provisioner.provision_storage unit Stubs.policies_ok
          "bedrock-kb-us-west-2-123456789012" "us-west-2" "bedrock-sample-rag-200" "role"
          "bedrock-sample-index-200" Stubs.after_first_run).2
     = [CreateCollection "bedrock-sample-rag-200" "VECTORSEARCH"].
Proof. repeat split; vm_compute; reflexivity. Qed.

(** ** Waiting for the collection *)

Section CollectionFacts.
Import Provisioner.Collection.
Variable backend : nat -> result (list collection_detail).

Lemma poll_unfold fuel k response slept :
  poll fuel backend k response slept =
  match first_status response with
  | Raise e => Finished (Raise e) slept
  | Return st =>
      if String.eqb st "CREATING" then
        match fuel with
        | O => StillPolling slept
        | S fuel' =>
            match backend k with
            | Raise e => Finished (Raise e) (slept + 30)
            | Return response' => poll fuel' backend (S k) response' (slept + 30)
            end
        end
      else Finished (Return response) slept
  end.
Proof. destruct fuel; reflexivity. Qed.

(** On an answer that does not keep the loop going, the loop is left at
    once, whatever fuel there is. *)
Lemma poll_leaves fuel k response slept :
  is_creating (Return response) = false ->
  poll fuel backend k response slept = Finished (leaves_with (Return response)) slept.
Proof.
  intros Hnot. rewrite poll_unfold. cbn in *.
  destruct (first_status response) as [st|e]; [|reflexivity].
  rewrite Hnot. reflexivity.
Qed.

(** [d] more [CREATING] answers, then one that is not: the loop is left
    after [d + 1] sleeps, with that answer. *)
Lemma poll_until_settled d : forall fuel k response slept,
  is_creating (Return response) = true ->
  (forall j, j < d -> is_creating (backend (k + j)) = true) ->
  is_creating (backend (k + d)) = false ->
  d < fuel ->
  poll fuel backend k response slept
  = Finished (leaves_with (backend (k + d))) (slept + 30 * S d).
Proof.
  induction d as [|d IH]; intros fuel k response slept Hcur Hpre Hend Hfuel.
  - destruct fuel as [|fuel]; [lia|].
    rewrite poll_unfold. cbn in Hcur.
    destruct (first_status response) as [st|e]; [|discriminate].
    rewrite Hcur. replace (k + 0) with k in * by lia.
    destruct (backend k) as [response'|e] eqn:Hk.
    + rewrite poll_leaves by exact Hend. f_equal; lia.
    + f_equal; lia.
  - destruct fuel as [|fuel]; [lia|].
    rewrite poll_unfold. cbn in Hcur.
    destruct (first_status response) as [st|e]; [|discriminate].
    rewrite Hcur.
    pose proof (Hpre 0 ltac:(lia)) as H0. replace (k + 0) with k in H0 by lia.
    destruct (backend k) as [response'|e] eqn:Hk; [|discriminate].
    rewrite (IH fuel (S k) response' (slept + 30)).
    + replace (S k + d) with (k + S d) by lia. f_equal; lia.
    + exact H0.
    + intros j Hj. replace (S k + j) with (k + S j) by lia. apply Hpre. lia.
    + replace (S k + d) with (k + S d) by lia. exact Hend.
    + lia.
Qed.

(** While every answer is [CREATING], the loop is never left: all the
    fuel is used, with thirty seconds slept per round. *)
Lemma poll_never_settles :
  (forall k, is_creating (backend k) = true) ->
  forall fuel k response slept,
    is_creating (Return response) = true ->
    poll fuel backend k response slept = StillPolling (slept + 30 * fuel).
Proof.
  intros Hall fuel. induction fuel as [|fuel IH]; intros k response slept Hcur.
  - rewrite poll_unfold. cbn in Hcur.
    destruct (first_status response) as [st|e]; [|discriminate].
    rewrite Hcur. f_equal; lia.
  - rewrite poll_unfold. cbn in Hcur.
    destruct (first_status response) as [st|e]; [|discriminate].
    rewrite Hcur. pose proof (Hall k) as Hk.
    destruct (backend k) as [response'|e] eqn:Hb; [|discriminate].
    rewrite IH by exact Hk. f_equal; lia.
Qed.
End CollectionFacts.

(** C1, as the code has it.  The cell has no wait budget and no timeout
    error.  If the answer number [n] is the first whose collection is not
    [CREATING], the cell is left after [n] sleeps of thirty seconds with that
    answer; while every answer is [CREATING] the cell is never left, however
    many rounds it is given. *)
Theorem wait_for_collection_has_no_budget
    (backend : nat -> result (list Provisioner.Collection.collection_detail)) :
  (forall n fuel,
      (forall k, k < n -> Provisioner.Collection.is_creating (backend k) = true) ->
      Provisioner.Collection.is_creating (backend n) = false ->
      n <= fuel ->
      Provisioner.Collection.wait_for_collection fuel backend
      = Finished (Provisioner.Collection.leaves_with (backend n)) (30 * n))
  /\ ((forall k, Provisioner.Collection.is_creating (backend k) = true) ->
      forall fuel,
        Provisioner.Collection.wait_for_collection fuel backend = StillPolling (30 * fuel)).
Proof.
  split.
  - intros n fuel Hpre Hend Hfuel. unfold Provisioner.Collection.wait_for_collection.
    destruct n as [|n].
    + destruct (backend 0) as [response|e] eqn:H0; [|reflexivity].
      rewrite poll_leaves by exact Hend. reflexivity.
    + pose proof (Hpre 0 ltac:(lia)) as H0.
      destruct (backend 0) as [response|e] eqn:Hb; [|discriminate].
      rewrite (poll_until_settled backend n fuel 1 response 0).
      * replace (1 + n) with (S n) by lia. f_equal.
      * exact H0.
      * intros j Hj. apply Hpre. lia.
      * exact Hend.
      * lia.
  - intros Hall fuel. unfold Provisioner.Collection.wait_for_collection.
    pose proof (Hall 0) as H0.
    destruct (backend 0) as [response|e] eqn:Hb; [|discriminate].
    rewrite (poll_never_settles backend Hall fuel 1 response 0 H0). reflexivity.
Qed.

(** A collection that is [ACTIVE] at the fourth answer is waited for three
    times thirty seconds; one that stays [CREATING] is still waited for after
    a hundred rounds. *)
Lemma wait_for_collection_has_no_budget_witness :
  Provisioner.Collection.wait_for_collection 5 Stubs.active_after_three
  = Finished (Return [Stubs.detail "ACTIVE"]) 90
  /\ Provisioner.Collection.wait_for_collection 100 Stubs.never_active
     = StillPolling 3000.
Proof.
  split.
  - apply (proj1 (wait_for_collection_has_no_budget Stubs.active_after_three) 3 5).
    + intros k Hk. destruct k as [|[|[|k]]]; [reflexivity..|lia].
    + reflexivity.
    + lia.
  - apply (proj2 (wait_for_collection_has_no_budget Stubs.never_active)).
    intros k. reflexivity.
Defined.

(** C1 as stated fails: against a collection that stays [CREATING] the cell
    is still polling after any number of rounds, and the time it has waited
    grows past every budget; no timeout error ends it. *)
Lemma collection_wait_never_times_out :
  (forall k, Provisioner.Collection.is_creating (Stubs.never_active k) = true)
  /\ (forall fuel,
        Provisioner.Collection.wait_for_collection fuel Stubs.never_active
        = StillPolling (30 * fuel)).
Proof.
  split; [intros k; reflexivity|].
  intros fuel. unfold Provisioner.Collection.wait_for_collection. cbn.
  apply (poll_never_settles Stubs.never_active); [intros k|]; reflexivity.
Qed.

(** ** Waiting for the ingestion job *)

Section IngestionFacts.
Import Provisioner.Ingestion.
Variable get_ingestion_job : nat -> result ingestion_job.

Lemma ingestion_poll_unfold fuel k job slept :
  poll fuel get_ingestion_job k job slept =
  if negb (String.eqb (status job) "COMPLETE") then
    match fuel with
    | O => StillPolling slept
    | S fuel' =>
        match get_ingestion_job k with
        | Raise e => Finished (Raise e) slept
        | Return job' => poll fuel' get_ingestion_job (S k) job' (slept + 30)
        end
    end
  else Finished (Return job) slept.
Proof. destruct fuel; reflexivity. Qed.

(** [d] more answers that are not [COMPLETE], then one that is. *)
Lemma ingestion_poll_until_complete d : forall fuel k job slept done,
  is_pending (Return job) = true ->
  (forall j, j < d -> is_pending (get_ingestion_job (k + j)) = true) ->
  get_ingestion_job (k + d) = Return done ->
  status done = "COMPLETE" ->
  d < fuel ->
  poll fuel get_ingestion_job k job slept = Finished (Return done) (slept + 30 * S d).
Proof.
  induction d as [|d IH]; intros fuel k job slept done Hcur Hpre Hend Hdone Hfuel;
    (destruct fuel as [|fuel]; [lia|]);
    rewrite ingestion_poll_unfold; cbn in Hcur; rewrite Hcur.
  - replace (k + 0) with k in Hend by lia. rewrite Hend.
    rewrite ingestion_poll_unfold, Hdone. cbn. f_equal; lia.
  - pose proof (Hpre 0 ltac:(lia)) as H0. replace (k + 0) with k in H0 by lia.
    destruct (get_ingestion_job k) as [job'|e] eqn:Hk; [|discriminate].
    rewrite (IH fuel (S k) job' (slept + 30) done).
    + f_equal; lia.
    + exact H0.
    + intros j Hj. replace (S k + j) with (k + S j) by lia. apply Hpre. lia.
    + replace (S k + d) with (k + S d) by lia. exact Hend.
    + exact Hdone.
    + lia.
Qed.

(** The loop hands back a job only with status [COMPLETE]. *)
Lemma ingestion_poll_returns_complete fuel : forall k job slept done slept',
  poll fuel get_ingestion_job k job slept = Finished (Return done) slept' ->
  status done = "COMPLETE".
Proof.
  induction fuel as [|fuel IH]; intros k job slept done slept' Hrun;
    rewrite ingestion_poll_unfold in Hrun;
    destruct (String.eqb (status job) "COMPLETE") eqn:Hst; cbn in Hrun.
  - inversion Hrun; subst. apply String.eqb_eq. exact Hst.
  - discriminate.
  - inversion Hrun; subst. apply String.eqb_eq. exact Hst.
  - destruct (get_ingestion_job k) as [job'|e]; [|discriminate].
    eapply IH. exact Hrun.
Qed.

(** The loop raises nothing of its own: an exception it ends with is one
    that [get_ingestion_job] raised. *)
Lemma ingestion_poll_raises_only_the_clients fuel : forall k job slept e slept',
  poll fuel get_ingestion_job k job slept = Finished (Raise e) slept' ->
  exists i, get_ingestion_job i = Raise e.
Proof.
  induction fuel as [|fuel IH]; intros k job slept e slept' Hrun;
    rewrite ingestion_poll_unfold in Hrun;
    destruct (String.eqb (status job) "COMPLETE"); cbn in Hrun; try discriminate.
  destruct (get_ingestion_job k) as [job'|e'] eqn:Hk.
  - eapply IH. exact Hrun.
  - inversion Hrun; subst. exists k. exact Hk.
Qed.

(** While no answer is [COMPLETE], the loop is never left. *)
Lemma ingestion_poll_never_completes :
  (forall k, is_pending (get_ingestion_job k) = true) ->
  forall fuel k job slept,
    is_pending (Return job) = true ->
    poll fuel get_ingestion_job k job slept = StillPolling (slept + 30 * fuel).
Proof.
  intros Hall fuel. induction fuel as [|fuel IH]; intros k job slept Hcur;
    rewrite ingestion_poll_unfold; cbn in Hcur; rewrite Hcur.
  - f_equal; lia.
  - pose proof (Hall k) as Hk.
    destruct (get_ingestion_job k) as [job'|e]; [|discriminate].
    rewrite IH by exact Hk. f_equal; lia.
Qed.
End IngestionFacts.

(** C2, as the code has it.  The cell leaves its loop on [COMPLETE] only:
    if the observation number [n] (the started job first, then each answer)
    is the first with status [COMPLETE], the cell returns that job after [n]
    polls; whatever job it returns has status [COMPLETE]; and it raises no
    error of its own, so that an exception it ends with is one the client
    raised.  No other status, [FAILED] included, ends the loop. *)
Theorem wait_for_ingestion_leaves_on_complete_only
    (job : Provisioner.Ingestion.ingestion_job)
    (get_ingestion_job : nat -> result Provisioner.Ingestion.ingestion_job) :
  (forall n fuel done,
      (forall k, k < n ->
         Provisioner.Ingestion.is_pending
           (Provisioner.Ingestion.observed job get_ingestion_job k) = true) ->
      Provisioner.Ingestion.observed job get_ingestion_job n = Return done ->
      Provisioner.Ingestion.status done = "COMPLETE" ->
      n <= fuel ->
      Provisioner.Ingestion.wait_for_ingestion fuel job get_ingestion_job
      = Finished (Return done) (30 * n))
  /\ (forall fuel done slept,
      Provisioner.Ingestion.wait_for_ingestion fuel job get_ingestion_job
      = Finished (Return done) slept ->
      Provisioner.Ingestion.status done = "COMPLETE")
  /\ (forall fuel e slept,
      Provisioner.Ingestion.wait_for_ingestion fuel job get_ingestion_job
      = Finished (Raise e) slept ->
      exists k, get_ingestion_job k = Raise e).
Proof.
  unfold Provisioner.Ingestion.wait_for_ingestion. repeat split.
  - intros n fuel done Hpre Hend Hdone Hfuel. destruct n as [|n].
    + cbn in Hend. inversion Hend; subst.
      rewrite ingestion_poll_unfold, Hdone. reflexivity.
    + cbn in Hend.
      rewrite (ingestion_poll_until_complete get_ingestion_job n fuel 0 job 0 done).
      * reflexivity.
      * exact (Hpre 0 ltac:(lia)).
      * intros j Hj. exact (Hpre (S j) ltac:(lia)).
      * exact Hend.
      * exact Hdone.
      * lia.
  - intros fuel done slept. apply ingestion_poll_returns_complete.
  - intros fuel e slept. apply ingestion_poll_raises_only_the_clients.
Qed.

(** A job seen as [STARTING], twice [IN_PROGRESS] and then [COMPLETE] is
    returned after three polls. *)
Lemma wait_for_ingestion_leaves_on_complete_only_witness :
  Provisioner.Ingestion.wait_for_ingestion 4 (Stubs.job "STARTING" []) Stubs.job_completes
  = Finished (Return (Stubs.job "COMPLETE" [])) 90.
Proof.
  apply (proj1 (wait_for_ingestion_leaves_on_complete_only
                  (Stubs.job "STARTING" []) Stubs.job_completes) 3 4).
  - intros k Hk. destruct k as [|[|[|k]]]; [reflexivity..|lia].
  - reflexivity.
  - reflexivity.
  - lia.
Defined.

(** C2 as stated fails: a job whose status reaches [FAILED] and stays there
    keeps the cell polling for ever; no error with the failure reasons is
    raised. *)
Lemma failed_job_is_polled_for_ever :
  Stubs.job_fails 1
  = Return (Stubs.job "FAILED" ["Encountered error: access denied to the bucket"])
  /\ (forall fuel,
        Provisioner.Ingestion.wait_for_ingestion fuel (Stubs.job "STARTING" []) Stubs.job_fails
        = StillPolling (30 * fuel)).
Proof.
  split; [reflexivity|].
  intros fuel. unfold Provisioner.Ingestion.wait_for_ingestion.
  apply (ingestion_poll_never_completes Stubs.job_fails); [|reflexivity].
  intros [|k]; reflexivity.
Qed.

(** ** The chunking policy *)

Lemma chunking_invariantb_spec (c : DataSource.chunkingConfiguration) :
  DataSource.chunking_invariantb c = true <-> DataSource.chunking_invariant c.
Proof.
  unfold DataSource.chunking_invariantb, DataSource.chunking_invariant.
  rewrite !andb_true_iff, negb_true_iff, Qle_bool_iff, Z.ltb_lt.
  split.
  - intros [[Hlo Hhi] Hmax]. repeat split; try assumption.
    apply Qnot_le_lt. intros Hle. apply Qle_bool_iff in Hle. congruence.
  - intros (Hlo & Hhi & Hmax). repeat split; try assumption.
    destruct (Qle_bool 1 (DataSource.overlap_fraction c)) eqn:Hb; [|reflexivity].
    apply Qle_bool_iff in Hb. exfalso. exact (Qlt_not_le _ _ Hhi Hb).
Qed.

(** C8.  The only chunking policy the notebook hands to the service is the
    configured one, in the request that creates the data source; whatever
    the names and the bucket, its overlap fraction (20 out of 100) lies in
    [0, 1) and its maximal size (512 tokens) is positive. *)
Theorem configured_chunking_policy_is_valid (name description kb_id bucket_name : string) :
  DataSource.chunking_invariant
    (DataSource.chunking
       (DataSource.create_data_source_request name description kb_id bucket_name))
  /\ DataSource.max_size
       (DataSource.chunking
          (DataSource.create_data_source_request name description kb_id bucket_name)) = 512%Z
  /\ DataSource.overlap_fraction
       (DataSource.chunking
          (DataSource.create_data_source_request name description kb_id bucket_name))
     = (20 # 100)%Q.
Proof.
  split; [|split; reflexivity].
  apply chunking_invariantb_spec. reflexivity.
Qed.

(** ** Downloading and uploading the documents *)

Section DocumentFacts.
Import Documents.
Variable urlretrieve : string -> result string.

(** One run of the loop asks for the first [n] of the remaining URLs, with
    [n] bounded by the file names that are left, and adds at most one file
    per URL asked for; it ends normally only if it asked for all of them. *)
Lemma download_from_progress : forall rest idx d,
  exists n,
    n <= length filenames - idx /\ n <= length rest
    /\ requested (download_from urlretrieve idx rest d).2 = requested d ++ take n rest
    /\ size (local (download_from urlretrieve idx rest d).2) <= size (local d) + n
    /\ ((download_from urlretrieve idx rest d).1 = Return tt -> n = length rest).
Proof.
  induction rest as [|url rest IH]; intros idx d.
  - exists 0. cbn. rewrite app_nil_r. repeat split; lia.
  - cbn [download_from]. unfold getitem.
    destruct (filenames !! idx) as [filename|] eqn:Hname.
    + apply lookup_lt_Some in Hname.
      destruct (urlretrieve url) as [document|e].
      * destruct (IH (S idx)
                    (mkDisk (<[data_root +:+ filename := document]> (local d))
                            (requested d ++ [url]))) as (n & Hn & Hrest & Hreq & Hsize & Hret).
        exists (S n). cbn [length]. repeat split.
        -- lia.
        -- lia.
        -- rewrite Hreq. cbn [requested take]. rewrite <- app_assoc. reflexivity.
        -- cbn [local] in Hsize.
           pose proof (map_size_insert (data_root +:+ filename) document (local d)) as Hins.
           destruct (local d !! (data_root +:+ filename)); cbn in Hins; lia.
        -- intros Hdone. f_equal. apply Hret. exact Hdone.
      * exists 1. cbn [length fst snd requested local take]. repeat split; try lia.
        discriminate.
    + exists 0. cbn [fst snd take]. rewrite app_nil_r. repeat split; try lia.
      discriminate.
Qed.

(** When no download fails, the loop runs out of file names first if there
    are fewer of them than URLs. *)
Lemma download_from_runs_out :
  (forall url, is_Return (urlretrieve url) = true) ->
  forall rest idx d,
    idx <= length filenames ->
    length filenames - idx < length rest ->
    (download_from urlretrieve idx rest d).1 = Raise IndexError
    /\ requested (download_from urlretrieve idx rest d).2
       = requested d ++ take (length filenames - idx) rest.
Proof.
  intros Hok. induction rest as [|url rest IH]; intros idx d Hidx Hlen.
  - cbn in Hlen. lia.
  - cbn [download_from]. unfold getitem.
    destruct (filenames !! idx) as [filename|] eqn:Hname.
    + apply lookup_lt_Some in Hname.
      pose proof (Hok url) as Hurl.
      destruct (urlretrieve url) as [document|e]; [|discriminate].
      destruct (IH (S idx)
                  (mkDisk (<[data_root +:+ filename := document]> (local d))
                          (requested d ++ [url]))) as [Hr Hreq].
      * lia.
      * cbn [length] in Hlen. lia.
      * split; [exact Hr|]. rewrite Hreq. cbn [requested].
        replace (length filenames - idx) with (S (length filenames - S idx)) by lia.
        cbn [take]. rewrite <- app_assoc. reflexivity.
    + apply lookup_ge_None in Hname.
      replace (length filenames - idx) with 0 by lia.
      cbn [fst snd take]. rewrite app_nil_r. split; reflexivity.
Qed.

(** The first download that fails ends the loop with its error, as long as
    there was a file name for it. *)
Lemma download_from_first_failure : forall rest idx d k url e,
  rest !! k = Some url ->
  idx + k < length filenames ->
  (forall j earlier, j < k -> rest !! j = Some earlier ->
                     is_Return (urlretrieve earlier) = true) ->
  urlretrieve url = Raise e ->
  (download_from urlretrieve idx rest d).1 = Raise e
  /\ requested (download_from urlretrieve idx rest d).2 = requested d ++ take (S k) rest.
Proof.
  induction rest as [|first rest IH]; intros idx d k url e Hk Hidx Hearlier Hfail.
  - rewrite lookup_nil in Hk. discriminate.
  - cbn [download_from]. unfold getitem.
    destruct (filenames !! idx) as [filename|] eqn:Hname;
      [|apply lookup_ge_None in Hname; lia].
    destruct k as [|k].
    + cbn in Hk. inversion Hk; subst first. rewrite Hfail.
      cbn [fst snd requested take]. split; reflexivity.
    + pose proof (Hearlier 0 first ltac:(lia) eq_refl) as Hfirst.
      destruct (urlretrieve first) as [document|e0]; [|discriminate].
      destruct (IH (S idx)
                  (mkDisk (<[data_root +:+ filename := document]> (local d))
                          (requested d ++ [first])) k url e) as [Hr Hreq].
      * exact Hk.
      * lia.
      * intros j earlier Hj Hlookup. apply (Hearlier (S j) earlier); [lia | exact Hlookup].
      * exact Hfail.
      * split; [exact Hr|]. rewrite Hreq. cbn [requested take].
        rewrite <- app_assoc. reflexivity.
Qed.
End DocumentFacts.

Lemma uploadDirectory_size (path : string) (fs bucket : gmap string string) :
  size (Documents.uploadDirectory path fs bucket) <= size bucket + size fs.
Proof.
  unfold Documents.uploadDirectory. rewrite <- (length_map_to_list fs).
  induction (map_to_list fs) as [|[file document] entries IH]; cbn [foldr length fst snd].
  - lia.
  - destruct (Documents.walked path file); [|lia].
    match goal with
    | |- size (<[?k := ?v]> ?m) <= _ =>
        pose proof (map_size_insert k v m) as Hins; destruct (m !! k); cbn in Hins; lia
    end.
Qed.




(** ** Strings *)

Section StringFacts.
Import PyStr.

Lemma append_cons c a b : String c a +:+ b = String c (a +:+ b).
Proof. reflexivity. Qed.

Lemma append_nil_r a : a +:+ "" = a.
Proof. induction a as [|c a IH]; [reflexivity|]. rewrite append_cons, IH. reflexivity. Qed.

Lemma append_assoc a b c : (a +:+ b) +:+ c = a +:+ (b +:+ c).
Proof.
  induction a as [|x a IH]; [reflexivity|]. rewrite !append_cons, IH. reflexivity.
Qed.

Lemma has_brace_app a b : has_brace (a +:+ b) = has_brace a || has_brace b.
Proof.
  induction a as [|c a IH]; [reflexivity|].
  rewrite append_cons. cbn [has_brace]. rewrite IH, !orb_assoc. reflexivity.
Qed.

Lemma has_brace_concat sep l :
  has_brace sep = false ->
  has_brace (String.concat sep l) = existsb has_brace l.
Proof.
  intros Hsep. induction l as [|x l IH]; [reflexivity|].
  destruct l as [|y l].
  - cbn. rewrite orb_false_r. reflexivity.
  - cbn [String.concat existsb] in *. rewrite !has_brace_app, Hsep, IH. reflexivity.
Qed.

(** Escaping neither adds nor removes a brace. *)
Lemma has_brace_repr_char q c :
  q = squote \/ q = dquote ->
  has_brace (repr_char q c) = Ascii.eqb c lbrace || Ascii.eqb c rbrace.
Proof.
  intros [-> | ->];
    destruct c as [[] [] [] [] [] [] [] []]; vm_compute; reflexivity.
Qed.

Lemma has_brace_repr_chars q s :
  q = squote \/ q = dquote ->
  has_brace (repr_chars q s) = has_brace s.
Proof.
  intros Hq. induction s as [|c s IH]; [reflexivity|].
  cbn [repr_chars has_brace]. rewrite has_brace_app, has_brace_repr_char, IH by exact Hq.
  reflexivity.
Qed.

Lemma repr_quote_cases s : repr_quote s = squote \/ repr_quote s = dquote.
Proof. unfold repr_quote. destruct (_ && _); [right|left]; reflexivity. Qed.

Lemma has_brace_py_repr s : has_brace (py_repr s) = has_brace s.
Proof.
  unfold py_repr. pose proof (repr_quote_cases s) as Hq.
  set (q := repr_quote s) in *. cbn [has_brace].
  rewrite has_brace_app, has_brace_repr_chars by exact Hq.
  destruct Hq as [-> | ->]; cbn; rewrite orb_false_r; reflexivity.
Qed.

Lemma existsb_has_brace_repr l :
  existsb has_brace (map py_repr l) = existsb has_brace l.
Proof.
  induction l as [|x l IH]; [reflexivity|].
  cbn [map existsb]. rewrite has_brace_py_repr, IH. reflexivity.
Qed.

Lemma has_brace_py_str_list l : has_brace (py_str_list l) = existsb has_brace l.
Proof.
  unfold py_str_list. rewrite !has_brace_app, has_brace_concat by reflexivity.
  rewrite existsb_has_brace_repr. cbn. rewrite orb_false_r. reflexivity.
Qed.

(** A format string without braces is all literal text. *)
Lemma format_literal_without_braces args kwargs s an :
  has_brace s = false ->
  format_literal args kwargs s an = Some (Return s).
Proof.
  induction s as [|c s IH]; intros Hs; [reflexivity|].
  cbn [has_brace] in Hs. apply orb_false_iff in Hs as [Hc Hs].
  apply orb_false_iff in Hc as [Hl Hr].
  cbn [format_literal]. rewrite Hl, Hr, (IH Hs). reflexivity.
Qed.
End StringFacts.

(** ** Retrieval *)

Lemma get_contexts_from (acc : list string) (results : list Rag.retrieval_result) :
  fold_left (fun contexts retrievedResult => contexts ++ [Rag.content_text retrievedResult])
            results acc
  = acc ++ map Rag.content_text results.
Proof.
  revert acc. induction results as [|r results IH]; intros acc; cbn [fold_left map].
  - rewrite app_nil_r. reflexivity.
  - rewrite IH, <- app_assoc. reflexivity.
Qed.

(** The loop of [get_contexts] is a map: one text per result, in order. *)
Lemma get_contexts_map (results : list Rag.retrieval_result) :
  Rag.get_contexts results = map Rag.content_text results.
Proof. unfold Rag.get_contexts. apply get_contexts_from. Qed.

(** C5, as the code has it.  [retrieve] takes the query, the knowledge base
    and the number of results, and no search mode: it sends exactly one
    request, which carries the caller's three arguments and the fixed
    override [HYBRID], and hands back the service's answer.  The LangChain
    retriever is configured with the fixed override [SEMANTIC]. *)
Theorem retrieve_sends_one_hybrid_request
    (service : Rag.retrieve_request -> result Rag.retrieve_response)
    (query kbId : string) (numberOfResults : Z) (sent : Rag.agent_client) :
  let request := {| Rag.retrievalQuery_text := query;
                    Rag.knowledgeBaseId := kbId;
                    Rag.numberOfResults := numberOfResults;
                    Rag.overrideSearchType := "HYBRID" |} in
  Rag.retrieve service query kbId numberOfResults sent = (service request, sent ++ [request])
  /\ Rag.mode_of_override (Rag.overrideSearchType request) = Some Rag.HYBRID
  /\ Rag.retrieve_default service query kbId sent
     = Rag.retrieve service query kbId 5 sent
  /\ Rag.mode_of_override (Rag.vs_overrideSearchType Rag.langchain_retrieval_config)
     = Some Rag.SEMANTIC.
Proof. repeat split. Qed.

(** C5 as stated fails: a caller who wants a semantic (or an automatic)
    search has no argument to say so, and the one request sent asks for a
    hybrid search. *)
Lemma retrieve_cannot_ask_for_semantic :
  map (fun request => Rag.mode_of_override (Rag.overrideSearchType request))
      (Rag.retrieve Stubs.three_passages "What is S3?" "KB1" 5 []).2
  = [Some Rag.HYBRID]
  /\ Rag.search_mode_eqb Rag.HYBRID Rag.SEMANTIC = false
  /\ Rag.search_mode_eqb Rag.HYBRID Rag.AUTO = false.
Proof. repeat split. Qed.

(** C6, as the code has it.  The cell sends one request and hands back the
    service's passages as they are: the same passages in the same order, so
    as many as the service answered with, whatever [numberOfResults] is; the
    texts taken from them are in that order too.  An answer without
    passages gives the empty list, and an error of the service is raised. *)
Theorem retrieve_hands_back_the_service_answer
    (service : Rag.retrieve_request -> result Rag.retrieve_response)
    (query kbId : string) (numberOfResults : Z) (sent : Rag.agent_client) :
  let request := {| Rag.retrievalQuery_text := query;
                    Rag.knowledgeBaseId := kbId;
                    Rag.numberOfResults := numberOfResults;
                    Rag.overrideSearchType := "HYBRID" |} in
  (Rag.retrieved_passages service query kbId numberOfResults sent).2 = sent ++ [request]
  /\ (forall passages,
        service request = Return {| Rag.retrievalResults := passages |} ->
        (Rag.retrieved_passages service query kbId numberOfResults sent).1 = Return passages
        /\ Rag.get_contexts passages = map Rag.content_text passages
        /\ length (Rag.get_contexts passages) = length passages)
  /\ (service request = Return {| Rag.retrievalResults := [] |} ->
        (Rag.retrieved_passages service query kbId numberOfResults sent).1 = Return []
        /\ Rag.get_contexts [] = [])
  /\ (forall e,
        service request = Raise e ->
        (Rag.retrieved_passages service query kbId numberOfResults sent).1 = Raise e).
Proof.
  intros request. unfold Rag.retrieved_passages, Rag.retrieve, Rag.client_retrieve.
  fold request. split; [|split; [|split]].
  - destruct (service request); reflexivity.
  - intros passages Hanswer. rewrite Hanswer. split; [reflexivity|]. split.
    + apply get_contexts_map.
    + rewrite get_contexts_map, length_map. reflexivity.
  - intros Hanswer. rewrite Hanswer. split; reflexivity.
  - intros e Hanswer. rewrite Hanswer. reflexivity.
Qed.

(** Passages scored 0.9, 0.7 and 0.5 come back in that order, and so do
    their texts; no passage gives the empty list. *)
Lemma retrieve_hands_back_the_service_answer_witness :
  (Rag.retrieved_passages Stubs.three_passages "What is S3?" "KB1" 5 []).1
  = Return [Stubs.passage "P1" (9 # 10); Stubs.passage "P2" (7 # 10);
            Stubs.passage "P3" (5 # 10)]
  /\ Rag.get_contexts [Stubs.passage "P1" (9 # 10); Stubs.passage "P2" (7 # 10);
                       Stubs.passage "P3" (5 # 10)] = ["P1"; "P2"; "P3"]
  /\ (Rag.retrieved_passages Stubs.no_passages "What is S3?" "KB1" 5 []).1 = Return [].
Proof.
  pose proof (retrieve_hands_back_the_service_answer Stubs.three_passages
                "What is S3?" "KB1" 5 []) as (_ & Hsome & _).
  pose proof (retrieve_hands_back_the_service_answer Stubs.no_passages
                "What is S3?" "KB1" 5 []) as (_ & _ & Hnone & _).
  destruct (Hsome [Stubs.passage "P1" (9 # 10); Stubs.passage "P2" (7 # 10);
                   Stubs.passage "P3" (5 # 10)] eq_refl) as (Hret & Hctx & _).
  split; [exact Hret|]. split; [exact Hctx|].
  exact (proj1 (Hnone eq_refl)).
Defined.

(** C6 as stated fails in its bound: asked for two results, a service that
    answers with three passages gets all three handed back. *)
Lemma retrieve_does_not_cut_to_the_number_asked :
  (Rag.retrieved_passages Stubs.three_passages "What is S3?" "KB1" 2 []).1
  = Return [Stubs.passage "P1" (9 # 10); Stubs.passage "P2" (7 # 10);
            Stubs.passage "P3" (5 # 10)]
  /\ (2 <? Z.of_nat (length [Stubs.passage "P1" (9 # 10); Stubs.passage "P2" (7 # 10);
                             Stubs.passage "P3" (5 # 10)]))%Z = true.
Proof. split; reflexivity. Qed.

(** ** The prompt *)

Section PromptFacts.
Import PyStr Rag.

Lemma prompt_unfold contexts query :
  prompt contexts query
  = before_context +:+ py_str_list contexts +:+ before_question +:+ query +:+ after_question.
Proof. unfold prompt, render_parts, prompt_parts. cbn. rewrite append_nil_r. reflexivity. Qed.

Lemma in_order_app_l ps pre s : in_order ps s -> in_order ps (pre +:+ s).
Proof.
  intros H. destruct H as [s|p ps gap rest H].
  - constructor.
  - rewrite <- append_assoc. constructor. exact H.
Qed.

Lemma in_order_app_r ps s post : in_order ps s -> in_order ps (s +:+ post).
Proof.
  intros H. induction H as [s|p ps gap rest H IH].
  - constructor.
  - rewrite !append_assoc. constructor. exact IH.
Qed.

(** The elements of a joined list occur in it in order, also when each is
    wrapped in the same opening and closing text. *)
Lemma in_order_concat_wrapped sep opening closing l :
  in_order l (String.concat sep (map (fun p => opening +:+ p +:+ closing) l)).
Proof.
  set (wrap := fun p => opening +:+ p +:+ closing).
  induction l as [|x l IH]; [constructor|].
  destruct l as [|y l].
  - cbn [map String.concat]. constructor. constructor.
  - change (String.concat sep (map wrap (x :: y :: l)))
      with (wrap x +:+ sep +:+ String.concat sep (map wrap (y :: l))).
    set (joined := String.concat sep (map wrap (y :: l))) in *.
    unfold wrap at 1. rewrite !append_assoc. constructor.
    apply in_order_app_l, in_order_app_l. exact IH.
Qed.

Lemma in_order_concat sep l : in_order l (String.concat sep l).
Proof.
  induction l as [|x l IH]; [constructor|].
  destruct l as [|y l].
  - cbn [String.concat].
    pose proof (in_order_cons x [] "" "" (in_order_nil "")) as H.
    change ("" +:+ x +:+ "") with (x +:+ "") in H.
    rewrite append_nil_r in H. exact H.
  - change (String.concat sep (x :: y :: l))
      with (x +:+ sep +:+ String.concat sep (y :: l)).
    apply (in_order_cons x (y :: l) "").
    apply in_order_app_l. exact IH.
Qed.

Lemma prefix_app p rest : String.prefix p (p +:+ rest) = true.
Proof.
  induction p as [|c p IH]; [destruct rest; reflexivity|].
  rewrite append_cons. cbn [String.prefix].
  destruct (ascii_dec c c) as [_|Hne]; [exact IH | contradiction].
Qed.

(** What occurs in order occurs: the first of the strings is a substring. *)
Lemma substringb_app gap p rest : substringb p (gap +:+ p +:+ rest) = true.
Proof.
  induction gap as [|c gap IH].
  - change ("" +:+ p +:+ rest) with (p +:+ rest).
    destruct (p +:+ rest) eqn:Heq; cbn [substringb]; rewrite <- Heq, prefix_app; reflexivity.
  - rewrite append_cons. cbn [substringb]. rewrite IH. apply orb_true_r.
Qed.

Lemma in_order_substring p ps s : in_order (p :: ps) s -> substringb p s = true.
Proof. intros H. inversion H; subst. apply substringb_app. Qed.

Lemma repr_plain_char c : plain_char c = true -> repr_char squote c = String c "".
Proof.
  destruct c as [[] [] [] [] [] [] [] []]; vm_compute;
    intros H; first [discriminate H | reflexivity].
Qed.

Lemma plain_has_no_quote s : is_plain s = true -> contains_char squote s = false.
Proof.
  induction s as [|c s IH]; [reflexivity|].
  cbn [is_plain contains_char]. intros H. apply andb_true_iff in H as [Hc Hs].
  rewrite (IH Hs), orb_false_r.
  unfold plain_char in Hc. destruct (Ascii.eqb c squote); [discriminate|reflexivity].
Qed.

Lemma repr_chars_plain s : is_plain s = true -> repr_chars squote s = s.
Proof.
  induction s as [|c s IH]; [reflexivity|].
  cbn [is_plain repr_chars]. intros H. apply andb_true_iff in H as [Hc Hs].
  rewrite (repr_plain_char c Hc), (IH Hs). reflexivity.
Qed.

(** The [repr] of a plain text is the text between single quotes. *)
Lemma py_repr_plain s :
  is_plain s = true -> py_repr s = String squote "" +:+ s +:+ String squote "".
Proof.
  intros H. unfold py_repr, repr_quote.
  rewrite (plain_has_no_quote s H). cbn [andb].
  rewrite (repr_chars_plain s H). reflexivity.
Qed.

Lemma map_py_repr_plain l :
  forallb is_plain l = true ->
  map py_repr l = map (fun p => String squote "" +:+ p +:+ String squote "") l.
Proof.
  induction l as [|x l IH]; [reflexivity|].
  cbn [forallb map]. intros H. apply andb_true_iff in H as [Hx Hl].
  rewrite (py_repr_plain x Hx), (IH Hl). reflexivity.
Qed.

Lemma has_brace_prompt contexts query :
  has_brace (prompt contexts query) = existsb has_brace contexts || has_brace query.
Proof.
  rewrite prompt_unfold, !has_brace_app, has_brace_py_str_list.
  change (has_brace before_context) with false.
  change (has_brace before_question) with false.
  change (has_brace after_question) with false.
  rewrite orb_false_r. reflexivity.
Qed.
End PromptFacts.

(** *** Keyword fields *)

Section FormatFacts.
Import PyStr Rag.
Variable args : list string.
Variable kwargs : gmap string string.

Lemma emit_app a b r : emit a (emit b r) = emit (a +:+ b) r.
Proof.
  destruct r as [[out|e]|]; cbn; [|reflexivity..].
  rewrite append_assoc. reflexivity.
Qed.

(** Literal text without braces is copied, and formatting goes on after it. *)
Lemma format_literal_app_plain lit s an :
  has_brace lit = false ->
  format_literal args kwargs (lit +:+ s) an = emit lit (format_literal args kwargs s an).
Proof.
  induction lit as [|c lit IH]; intros Hlit.
  - change ("" +:+ s) with s.
    destruct (format_literal args kwargs s an) as [[out|e]|]; reflexivity.
  - cbn [has_brace] in Hlit. apply orb_false_iff in Hlit as [Hc Hlit].
    apply orb_false_iff in Hc as [Hl Hr].
    rewrite append_cons. cbn [format_literal].
    rewrite Hl, Hr, (IH Hlit), emit_app. reflexivity.
Qed.

Lemma format_literal_unfold s an :
  format_literal args kwargs s an =
  match s with
  | EmptyString => Some (Return "")
  | String c rest =>
      if Ascii.eqb c lbrace then
        match rest with
        | EmptyString => Some (Raise (ValueError "Single '{' encountered in format string"))
        | String c' rest' =>
            if Ascii.eqb c' lbrace
            then emit (String lbrace "") (format_literal args kwargs rest' an)
            else format_field args kwargs rest an ""
        end
      else if Ascii.eqb c rbrace then
        match rest with
        | EmptyString => Some (Raise (ValueError "Single '}' encountered in format string"))
        | String c' rest' =>
            if Ascii.eqb c' rbrace
            then emit (String rbrace "") (format_literal args kwargs rest' an)
            else Some (Raise (ValueError "Single '}' encountered in format string"))
        end
      else emit (String c "") (format_literal args kwargs rest an)
  end.
Proof. destruct s; reflexivity. Qed.

Lemma format_field_unfold s an field_name :
  format_field args kwargs s an field_name =
  match s with
  | EmptyString => Some (Raise (ValueError "expected '}' before end of string"))
  | String c rest =>
      if Ascii.eqb c lbrace then Some (Raise (ValueError "unexpected '{' in field name"))
      else if Ascii.eqb c "[" then format_index args kwargs rest an (field_name +:+ "[")
      else if Ascii.eqb c rbrace then
        output_markup args kwargs field_name true an
          (fun an' => format_literal args kwargs rest an')
      else if Ascii.eqb c ":" then format_spec args kwargs rest an field_name 0
      else if Ascii.eqb c "!" then format_conversion args kwargs rest an field_name
      else format_field args kwargs rest an (field_name +:+ String c "")
  end.
Proof. destruct s; reflexivity. Qed.

Lemma no_markup_cons c s :
  no_markup (String c s) = true ->
  Ascii.eqb c lbrace = false /\ Ascii.eqb c rbrace = false /\ Ascii.eqb c "[" = false
  /\ Ascii.eqb c ":" = false /\ Ascii.eqb c "!" = false /\ Ascii.eqb c "." = false
  /\ no_markup s = true.
Proof.
  unfold no_markup. cbn [contains_char]. rewrite !negb_true_iff.
  intros H. repeat (apply orb_false_iff in H as [H ?]).
  repeat match goal with
         | Hor : _ || _ = false |- _ => apply orb_false_iff in Hor as [Hor ?]
         end.
  repeat split; try assumption.
  repeat (apply orb_false_iff; split); assumption.
Qed.

(** A field name without markup is read up to the closing brace. *)
Lemma format_field_name name : forall rest an seen,
  no_markup name = true ->
  format_field args kwargs (name +:+ String rbrace rest) an seen
  = output_markup args kwargs (seen +:+ name) true an
      (fun an' => format_literal args kwargs rest an').
Proof.
  induction name as [|c name IH]; intros rest an seen Hname.
  - change ("" +:+ String rbrace rest) with (String rbrace rest).
    rewrite format_field_unfold, append_nil_r. reflexivity.
  - apply no_markup_cons in Hname as (Hl & Hr & Hi & Hs & Hc & _ & Hname).
    rewrite append_cons, format_field_unfold, Hl, Hi, Hr, Hs, Hc.
    rewrite (IH rest an (seen +:+ String c "") Hname), append_assoc. reflexivity.
Qed.

Lemma first_part_no_markup name : no_markup name = true -> first_part name = name.
Proof.
  induction name as [|c name IH]; [reflexivity|]. intros Hname.
  apply no_markup_cons in Hname as (_ & _ & Hi & _ & _ & Hd & Hname).
  cbn [first_part]. rewrite Hd, Hi, (IH Hname). reflexivity.
Qed.

(** A keyword field is replaced by the keyword's argument. *)
Lemma format_keyword_field name rest an value :
  is_keyword name = true ->
  kwargs !! name = Some value ->
  format_literal args kwargs (String lbrace (name +:+ String rbrace rest)) an
  = emit value (format_literal args kwargs rest an).
Proof.
  intros Hkey Hvalue. unfold is_keyword in Hkey.
  apply andb_true_iff in Hkey as [Hkey Hname]. apply andb_true_iff in Hkey as [Hne Hint].
  destruct name as [|c name]; [discriminate|].
  pose proof (no_markup_cons c name Hname) as (Hl & _ & _ & _ & _ & Hd & Hrest).
  pose proof (format_field_name (String c name) rest an "" Hname) as Hfield.
  rewrite append_cons in *. rewrite format_literal_unfold.
  change (Ascii.eqb lbrace lbrace) with true. cbv beta iota.
  rewrite Hl, Hfield. change ("" +:+ String c name) with (String c name).
  unfold output_markup. rewrite (first_part_no_markup _ Hname).
  unfold get_field.
  destruct (get_integer (String c name)); try discriminate.
  rewrite Hvalue. cbn [andb].
  unfold no_markup in Hname. rewrite negb_true_iff in Hname.
  repeat (apply orb_false_iff in Hname as [Hname ?]).
  repeat match goal with
         | Hor : _ || _ = false |- _ => apply orb_false_iff in Hor as [Hor ?]
         end.
  match goal with
  | Hdot : contains_char "." _ = false, Hidx : contains_char "[" _ = false |- _ =>
      rewrite Hdot, Hidx
  end.
  reflexivity.
Qed.

(** The LangChain template filled in by [str.format]: the context text and
    the question stand, as they are, in the two slots of the same fixed
    text. *)
Lemma PROMPT_TEMPLATE_format context question :
  kwargs !! "context" = Some context ->
  kwargs !! "question" = Some question ->
  py_format args kwargs PROMPT_TEMPLATE
  = Some (Return (before_context +:+ context +:+ before_question
                  +:+ question +:+ after_question)).
Proof.
  intros Hcontext Hquestion. unfold py_format, PROMPT_TEMPLATE.
  rewrite format_literal_app_plain by reflexivity.
  change ("{context}" +:+ before_question +:+ "{question}" +:+ after_question)
    with (String lbrace ("context" +:+ String rbrace
            (before_question +:+ "{question}" +:+ after_question))).
  rewrite (format_keyword_field "context" _ _ context eq_refl Hcontext).
  rewrite format_literal_app_plain by reflexivity.
  change ("{question}" +:+ after_question)
    with (String lbrace ("question" +:+ String rbrace after_question)).
  rewrite (format_keyword_field "question" _ _ question eq_refl Hquestion).
  rewrite (format_literal_without_braces args kwargs after_question) by reflexivity.
  reflexivity.
Qed.
End FormatFacts.

(** C7, as the code has it.  For every passage list and query the prompt is
    the fixed text with [str] of the passage list in the context slot and the
    query in the question slot, each slot occurring once in the f-string.
    The context slot therefore holds the [repr] of each passage, in the given
    order.  The passage texts themselves occur there, in order, when they are
    plain: printable, without single quote or backslash.  For the passages
    [A], [B] and the query [Q], [A] is quoted before [B] and [Q] occurs
    once.  The LangChain template is the same fixed text with the named
    placeholders: filled in by [str.format], it holds the context text and
    the question, as they are, in the two slots. *)
Theorem prompt_renders_passages_in_order_and_the_query_once
    (contexts : list string) (query : string) :
  Rag.prompt contexts query
  = Rag.before_context +:+ PyStr.py_str_list contexts +:+ Rag.before_question
    +:+ query +:+ Rag.after_question
  /\ length (filter (fun p => Rag.is_contexts p = true) Rag.prompt_parts) = 1
  /\ length (filter (fun p => Rag.is_query p = true) Rag.prompt_parts) = 1
  /\ PyStr.in_order (map PyStr.py_repr contexts) (PyStr.py_str_list contexts)
  /\ PyStr.in_order (map PyStr.py_repr contexts) (Rag.prompt contexts query)
  /\ (forallb PyStr.is_plain contexts = true ->
      PyStr.in_order contexts (PyStr.py_str_list contexts)
      /\ PyStr.in_order contexts (Rag.prompt contexts query))
  /\ PyStr.find "'A'" (Rag.prompt ["A"; "B"] "Q") = Some 369
  /\ PyStr.find "'B'" (Rag.prompt ["A"; "B"] "Q") = Some 374
  /\ PyStr.occurrences "Q" (Rag.prompt ["A"; "B"] "Q") = 1
  /\ (forall (kwargs : gmap string string) context,
      kwargs !! "context" = Some context ->
      kwargs !! "question" = Some query ->
      PyStr.py_format [] kwargs Rag.PROMPT_TEMPLATE
      = Some (Return (Rag.before_context +:+ context +:+ Rag.before_question
                      +:+ query +:+ Rag.after_question))).
Proof.
  assert (Hslot : forall ps,
             PyStr.in_order ps (PyStr.py_str_list contexts) ->
             PyStr.in_order ps (Rag.prompt contexts query)).
  { intros ps H. rewrite prompt_unfold.
    apply in_order_app_l, in_order_app_r. exact H. }
  assert (Hrepr : PyStr.in_order (map PyStr.py_repr contexts) (PyStr.py_str_list contexts)).
  { unfold PyStr.py_str_list. apply in_order_app_l, in_order_app_r, in_order_concat. }
  split; [apply prompt_unfold|].
  split; [reflexivity|]. split; [reflexivity|].
  split; [exact Hrepr|]. split; [exact (Hslot _ Hrepr)|].
  split; [|split; [|split; [|split]]]; [|vm_compute; reflexivity..|].
  2: { intros kwargs context. apply PROMPT_TEMPLATE_format. }
  intros Hplain.
  assert (Htext : PyStr.in_order contexts (PyStr.py_str_list contexts)).
  { unfold PyStr.py_str_list. rewrite (map_py_repr_plain contexts Hplain).
    apply in_order_app_l, in_order_app_r, in_order_concat_wrapped. }
  split; [exact Htext | exact (Hslot _ Htext)].
Qed.

(** The passages [A] and [B] occur in their prompt in that order. *)
Lemma prompt_renders_passages_in_order_and_the_query_once_witness :
  PyStr.in_order ["A"; "B"] (Rag.prompt ["A"; "B"] "Q").
Proof.
  pose proof (prompt_renders_passages_in_order_and_the_query_once ["A"; "B"] "Q")
    as (_ & _ & _ & _ & _ & Hplain & _).
  apply Hplain. reflexivity.
Defined.

(** C7 as stated fails: a passage of two lines is not in the prompt built
    from it (its line break is written as a backslash and an [n]), and a
    query that is a word of the fixed text occurs in the prompt twice. *)
Lemma prompt_escapes_passages_and_may_repeat_the_query :
  PyStr.substringb Stubs.two_lines (Rag.prompt [Stubs.two_lines] "Q") = false
  /\ PyStr.substringb (PyStr.py_repr Stubs.two_lines) (Rag.prompt [Stubs.two_lines] "Q") = true
  /\ PyStr.occurrences "Human" (Rag.prompt ["A"; "B"] "Human") = 2.
Proof. repeat split; vm_compute; reflexivity. Qed.

(** ** The second substitution *)

Section SecondSubstitution.
Import PyStr Rag.
Variable args : list string.
Variable kwargs : gmap string string.

Lemma format_index_unfold s an field_name :
  format_index args kwargs s an field_name =
  match s with
  | EmptyString => Some (Raise (ValueError "expected '}' before end of string"))
  | String c rest =>
      if Ascii.eqb c "]" then format_field args kwargs rest an (field_name +:+ "]")
      else format_index args kwargs rest an (field_name +:+ String c "")
  end.
Proof. destruct s; reflexivity. Qed.

Lemma format_conversion_unfold s an field_name :
  format_conversion args kwargs s an field_name =
  match s with
  | EmptyString =>
      Some (Raise (ValueError "end of string while looking for conversion specifier"))
  | String conversion rest =>
      match rest with
      | EmptyString => Some (Raise (ValueError "unmatched '{' in format spec"))
      | String c rest' =>
          if Ascii.eqb c rbrace then
            output_markup args kwargs field_name false an
              (fun an' => format_literal args kwargs rest' an')
          else if Ascii.eqb c ":" then format_spec args kwargs rest' an field_name 0
          else Some (Raise (ValueError "expected ':' after conversion specifier"))
      end
  end.
Proof. destruct s; reflexivity. Qed.

Lemma format_spec_unfold s an field_name nested :
  format_spec args kwargs s an field_name nested =
  match s with
  | EmptyString => Some (Raise (ValueError "unmatched '{' in format spec"))
  | String c rest =>
      if Ascii.eqb c lbrace then format_spec args kwargs rest an field_name (S nested)
      else if Ascii.eqb c rbrace then
        match nested with
        | O => output_markup args kwargs field_name false an
                 (fun an' => format_literal args kwargs rest an')
        | S nested' => format_spec args kwargs rest an field_name nested'
        end
      else format_spec args kwargs rest an field_name nested
  end.
Proof. destruct s; reflexivity. Qed.

(** A field that no brace closes is never looked up: wherever the reading
    stands in it, it ends with one of the [ValueError]s of the parser. *)
Lemma unclosed_field_raises s :
  has_brace s = false ->
  (forall an name, exists msg,
      format_field args kwargs s an name = Some (Raise (ValueError msg)))
  /\ (forall an name, exists msg,
      format_index args kwargs s an name = Some (Raise (ValueError msg)))
  /\ (forall an name, exists msg,
      format_conversion args kwargs s an name = Some (Raise (ValueError msg)))
  /\ (forall an name nested, exists msg,
      format_spec args kwargs s an name nested = Some (Raise (ValueError msg))).
Proof.
  induction s as [|c s IH]; intros Hs.
  - repeat split; intros; eexists; reflexivity.
  - cbn [has_brace] in Hs. apply orb_false_iff in Hs as [Hc Hs].
    apply orb_false_iff in Hc as [Hl Hr].
    destruct (IH Hs) as (Hfield & Hindex & Hconversion & Hspec).
    split; [|split; [|split]].
    + intros an name. rewrite format_field_unfold, Hl, Hr.
      destruct (Ascii.eqb c "["); [apply Hindex|].
      destruct (Ascii.eqb c ":"); [apply Hspec|].
      destruct (Ascii.eqb c "!"); [apply Hconversion | apply Hfield].
    + intros an name. rewrite format_index_unfold.
      destruct (Ascii.eqb c "]"); [apply Hfield | apply Hindex].
    + intros an name. rewrite format_conversion_unfold.
      destruct s as [|c' s']; [eexists; reflexivity|].
      cbn [has_brace] in Hs. apply orb_false_iff in Hs as [Hc' _].
      apply orb_false_iff in Hc' as [Hl' Hr']. rewrite Hr'.
      destruct (Ascii.eqb c' ":"); [|eexists; reflexivity].
      destruct (Hspec an name 0) as [msg Hmsg].
      rewrite format_spec_unfold, Hl', Hr' in Hmsg. exists msg. exact Hmsg.
    + intros an name nested. rewrite format_spec_unfold, Hl, Hr. apply Hspec.
Qed.

(** An opening brace that nothing closes. *)
Lemma format_literal_unclosed rest an :
  has_brace rest = false ->
  exists msg,
    format_literal args kwargs (String lbrace rest) an = Some (Raise (ValueError msg)).
Proof.
  intros Hrest. rewrite format_literal_unfold.
  change (Ascii.eqb lbrace lbrace) with true. cbv beta iota.
  destruct rest as [|c rest']; [eexists; reflexivity|].
  pose proof Hrest as Hc. cbn [has_brace] in Hc. apply orb_false_iff in Hc as [Hc _].
  apply orb_false_iff in Hc as [-> _].
  apply (unclosed_field_raises _ Hrest).
Qed.

(** A closing brace that no second one follows. *)
Lemma format_literal_single_closing rest an :
  String.prefix "}" rest = false ->
  format_literal args kwargs (String rbrace rest) an
  = Some (Raise (ValueError "Single '}' encountered in format string")).
Proof.
  intros Hrest. rewrite format_literal_unfold.
  change (Ascii.eqb rbrace lbrace) with false.
  change (Ascii.eqb rbrace rbrace) with true. cbv beta iota.
  destruct rest as [|c rest']; [reflexivity|].
  destruct (Ascii.eqb_spec c rbrace) as [->|_]; [|reflexivity].
  cbn in Hrest. destruct rest'; discriminate Hrest.
Qed.

(** Doubled braces come out single. *)
Lemma format_literal_doubled (b : ascii) rest an :
  b = lbrace \/ b = rbrace ->
  has_brace rest = false ->
  format_literal args kwargs (String b (String b rest)) an = Some (Return (String b rest)).
Proof.
  intros Hb Hrest. rewrite format_literal_unfold.
  rewrite (format_literal_without_braces args kwargs rest an Hrest).
  destruct Hb as [-> | ->]; reflexivity.
Qed.

(** A field with a name without markup, followed by text without braces:
    the field's argument is looked up and put in its place. *)
Lemma format_literal_plain_field name rest an :
  no_markup name = true ->
  has_brace rest = false ->
  format_literal args kwargs (String lbrace (name +:+ String rbrace rest)) an
  = match get_field args kwargs name an with
    | Raise e => Some (Raise e)
    | Return (value, _) => Some (Return (value +:+ rest))
    end.
Proof.
  intros Hname Hrest.
  assert (Hfield : format_literal args kwargs (String lbrace (name +:+ String rbrace rest)) an
                   = format_field args kwargs (name +:+ String rbrace rest) an "").
  { destruct name as [|c name]; [reflexivity|].
    pose proof (no_markup_cons c name Hname) as (Hl & _).
    rewrite append_cons, format_literal_unfold.
    change (Ascii.eqb lbrace lbrace) with true. cbv beta iota.
    rewrite Hl. reflexivity. }
  rewrite Hfield, (format_field_name args kwargs name rest an "" Hname).
  change ("" +:+ name) with name.
  unfold output_markup. rewrite (first_part_no_markup name Hname).
  destruct (get_field args kwargs name an) as [[value an']|e]; [|reflexivity].
  unfold no_markup in Hname. rewrite negb_true_iff in Hname.
  repeat (apply orb_false_iff in Hname as [Hname ?]).
  repeat match goal with
         | Hor : _ || _ = false |- _ => apply orb_false_iff in Hor as [Hor ?]
         end.
  match goal with
  | Hdot : contains_char "." _ = false, Hidx : contains_char "[" _ = false |- _ =>
      rewrite Hdot, Hidx
  end.
  cbn [andb orb negb].
  rewrite (format_literal_without_braces args kwargs rest an' Hrest). reflexivity.
Qed.
End SecondSubstitution.

Section SecondSubstitutionOfThePrompt.
Import PyStr Rag.
Variable contexts : list string.

(** The prompt around a part of the query. *)
Lemma prompt_around a x b :
  prompt contexts (a +:+ x +:+ b)
  = (before_context +:+ py_str_list contexts +:+ before_question +:+ a)
    +:+ x +:+ (b +:+ after_question).
Proof. rewrite prompt_unfold, !append_assoc. reflexivity. Qed.

Lemma has_brace_before_the_part a :
  existsb has_brace contexts = false ->
  has_brace a = false ->
  has_brace (before_context +:+ py_str_list contexts +:+ before_question +:+ a) = false.
Proof.
  intros Hcontexts Ha.
  rewrite !has_brace_app, has_brace_py_str_list, Hcontexts, Ha. reflexivity.
Qed.

Lemma has_brace_after_the_part b :
  has_brace b = false -> has_brace (b +:+ after_question) = false.
Proof. intros Hb. rewrite has_brace_app, Hb. reflexivity. Qed.

(** The message when the query has one piece of markup [x], between texts
    without braces: the text before it is copied, and the reading goes on
    at [x]. *)
Lemma message_of_around a x b :
  existsb has_brace contexts = false ->
  has_brace a = false ->
  message_of contexts (a +:+ x +:+ b)
  = emit (before_context +:+ py_str_list contexts +:+ before_question +:+ a)
      (format_literal [py_str_list contexts; a +:+ x +:+ b] ∅
         (x +:+ (b +:+ after_question)) (mkAuto ANS_INIT 0)).
Proof.
  intros Hcontexts Ha. unfold message_of, py_format.
  rewrite prompt_around.
  apply format_literal_app_plain, has_brace_before_the_part; assumption.
Qed.

Lemma message_of_field name a b :
  existsb has_brace contexts = false ->
  has_brace a = false ->
  has_brace b = false ->
  no_markup name = true ->
  message_of contexts (a +:+ ("{" +:+ name +:+ "}") +:+ b)
  = match get_field [py_str_list contexts; a +:+ ("{" +:+ name +:+ "}") +:+ b] ∅ name
            (mkAuto ANS_INIT 0) with
    | Raise e => Some (Raise e)
    | Return (value, _) => Some (Return (prompt contexts (a +:+ value +:+ b)))
    end.
Proof.
  intros Hcontexts Ha Hb Hname.
  rewrite (message_of_around a _ b Hcontexts Ha).
  replace (("{" +:+ name +:+ "}") +:+ (b +:+ after_question))
    with (String lbrace (name +:+ String rbrace (b +:+ after_question)))
    by (change ("{" +:+ name +:+ "}") with (String lbrace (name +:+ "}"));
        rewrite append_cons, append_assoc; reflexivity).
  rewrite format_literal_plain_field by (try apply has_brace_after_the_part; assumption).
  destruct (get_field _ _ name _) as [[value an']|e]; [|reflexivity].
  cbn [emit]. rewrite prompt_around. reflexivity.
Qed.
End SecondSubstitutionOfThePrompt.

(** C10, as the code has it.  The prompt goes through [str.format] once
    more, and the model is invoked exactly when that returns a text, with
    that text.  When no passage and not the query has a brace, the text is
    the prompt itself.  A brace is read as markup.  When the first brace of
    the prompt is a closing one that no second one follows, or an opening
    one with no brace after it, the substitution raises [ValueError].  In a
    query with one piece of markup between texts without braces, and
    passages without braces, a doubled brace becomes one, the fields [{}]
    and [{0}] are replaced by the passage list and the field [{1}] by the
    query, so that the query [{1}] leaves the prompt as it was; a field
    named by a keyword raises [KeyError]. *)
Theorem second_substitution_reads_braces_as_fields
    (service : nat -> Rag.payload -> result Rag.response_body) (calls : nat)
    (contexts : list string) :
  (forall query,
      Rag.generation_step service contexts query calls
      = match Rag.message_of contexts query with
        | None => None
        | Some (Raise e) => Some (Raise e, calls)
        | Some (Return text) =>
            Some (Rag.generate service (Rag.sonnet_payload text) calls)
        end)
  /\ (forall query,
      existsb PyStr.has_brace contexts = false ->
      PyStr.has_brace query = false ->
      Rag.message_of contexts query = Some (Return (Rag.prompt contexts query)))
  /\ (forall query before rest,
      Rag.prompt contexts query = before +:+ "}" +:+ rest ->
      PyStr.has_brace before = false ->
      String.prefix "}" rest = false ->
      Rag.message_of contexts query
      = Some (Raise (ValueError "Single '}' encountered in format string")))
  /\ (forall query before rest,
      Rag.prompt contexts query = before +:+ "{" +:+ rest ->
      PyStr.has_brace before = false ->
      PyStr.has_brace rest = false ->
      exists msg, Rag.message_of contexts query = Some (Raise (ValueError msg)))
  /\ (forall a b,
      existsb PyStr.has_brace contexts = false ->
      PyStr.has_brace a = false ->
      PyStr.has_brace b = false ->
      Rag.message_of contexts (a +:+ "{{" +:+ b)
      = Some (Return (Rag.prompt contexts (a +:+ "{" +:+ b)))
      /\ Rag.message_of contexts (a +:+ "}}" +:+ b)
         = Some (Return (Rag.prompt contexts (a +:+ "}" +:+ b)))
      /\ Rag.message_of contexts (a +:+ "{}" +:+ b)
         = Some (Return (Rag.prompt contexts (a +:+ PyStr.py_str_list contexts +:+ b)))
      /\ Rag.message_of contexts (a +:+ "{0}" +:+ b)
         = Some (Return (Rag.prompt contexts (a +:+ PyStr.py_str_list contexts +:+ b)))
      /\ Rag.message_of contexts (a +:+ "{1}" +:+ b)
         = Some (Return (Rag.prompt contexts (a +:+ (a +:+ "{1}" +:+ b) +:+ b)))
      /\ (forall name,
            PyStr.is_keyword name = true ->
            Rag.message_of contexts (a +:+ ("{" +:+ name +:+ "}") +:+ b)
            = Some (Raise (KeyError name))))
  /\ (existsb PyStr.has_brace contexts = false ->
      Rag.message_of contexts "{1}" = Some (Return (Rag.prompt contexts "{1}"))).
Proof.
  assert (Hfields : forall a b,
      existsb PyStr.has_brace contexts = false ->
      PyStr.has_brace a = false ->
      PyStr.has_brace b = false ->
      Rag.message_of contexts (a +:+ "{{" +:+ b)
      = Some (Return (Rag.prompt contexts (a +:+ "{" +:+ b)))
      /\ Rag.message_of contexts (a +:+ "}}" +:+ b)
         = Some (Return (Rag.prompt contexts (a +:+ "}" +:+ b)))
      /\ Rag.message_of contexts (a +:+ "{}" +:+ b)
         = Some (Return (Rag.prompt contexts (a +:+ PyStr.py_str_list contexts +:+ b)))
      /\ Rag.message_of contexts (a +:+ "{0}" +:+ b)
         = Some (Return (Rag.prompt contexts (a +:+ PyStr.py_str_list contexts +:+ b)))
      /\ Rag.message_of contexts (a +:+ "{1}" +:+ b)
         = Some (Return (Rag.prompt contexts (a +:+ (a +:+ "{1}" +:+ b) +:+ b)))
      /\ (forall name,
            PyStr.is_keyword name = true ->
            Rag.message_of contexts (a +:+ ("{" +:+ name +:+ "}") +:+ b)
            = Some (Raise (KeyError name)))).
  { intros a b Hcontexts Ha Hb.
    pose proof (has_brace_after_the_part b Hb) as Hafter.
    split; [|split; [|split; [|split; [|split]]]].
    - rewrite (message_of_around contexts a _ b Hcontexts Ha).
      change ("{{" +:+ (b +:+ Rag.after_question))
        with (String PyStr.lbrace (String PyStr.lbrace (b +:+ Rag.after_question))).
      rewrite format_literal_doubled by (auto; left; reflexivity).
      cbn [PyStr.emit]. rewrite prompt_around. reflexivity.
    - rewrite (message_of_around contexts a _ b Hcontexts Ha).
      change ("}}" +:+ (b +:+ Rag.after_question))
        with (String PyStr.rbrace (String PyStr.rbrace (b +:+ Rag.after_question))).
      rewrite format_literal_doubled by (auto; right; reflexivity).
      cbn [PyStr.emit]. rewrite prompt_around. reflexivity.
    - exact (message_of_field contexts "" a b Hcontexts Ha Hb eq_refl).
    - exact (message_of_field contexts "0" a b Hcontexts Ha Hb eq_refl).
    - exact (message_of_field contexts "1" a b Hcontexts Ha Hb eq_refl).
    - intros name Hkey.
      rewrite (message_of_field contexts name a b Hcontexts Ha Hb)
        by (unfold PyStr.is_keyword in Hkey; apply andb_true_iff in Hkey as [_ Hkey];
            exact Hkey).
      unfold PyStr.is_keyword in Hkey.
      apply andb_true_iff in Hkey as [Hkey _]. apply andb_true_iff in Hkey as [Hne Hint].
      unfold PyStr.get_field.
      destruct (PyStr.get_integer name); try discriminate.
      destruct name as [|c name]; [discriminate|].
      rewrite lookup_empty. reflexivity. }
  split; [|split; [|split; [|split; [|split]]]].
  - intros query. unfold Rag.generation_step.
    destruct (Rag.message_of contexts query) as [[text|e]|]; reflexivity.
  - intros query Hcontexts Hquery. unfold Rag.message_of, PyStr.py_format.
    apply format_literal_without_braces.
    rewrite has_brace_prompt, Hcontexts, Hquery. reflexivity.
  - intros query before rest Hprompt Hbefore Hrest.
    unfold Rag.message_of, PyStr.py_format. rewrite Hprompt.
    rewrite format_literal_app_plain by exact Hbefore.
    change ("}" +:+ rest) with (String PyStr.rbrace rest).
    rewrite format_literal_single_closing by exact Hrest. reflexivity.
  - intros query before rest Hprompt Hbefore Hrest.
    unfold Rag.message_of, PyStr.py_format. rewrite Hprompt.
    rewrite format_literal_app_plain by exact Hbefore.
    change ("{" +:+ rest) with (String PyStr.lbrace rest).
    destruct (format_literal_unclosed [PyStr.py_str_list contexts; query] ∅ rest
                (PyStr.mkAuto PyStr.ANS_INIT 0) Hrest) as [msg Hmsg].
    exists msg. rewrite Hmsg. reflexivity.
  - exact Hfields.
  - intros Hcontexts.
    destruct (Hfields "" "" Hcontexts eq_refl eq_refl) as (_ & _ & _ & _ & Hquery & _).
    exact Hquery.
Qed.

(** The rules at the passages [A] and [B]: a query without braces goes
    through to the model's answer; the queries of one closing and of one
    opening brace stop with [ValueError] before the model is invoked. *)
Lemma second_substitution_reads_braces_as_fields_witness :
  Rag.generation_step Stubs.answers_at_once ["A"; "B"] "Q" 0
  = Some (Return "Use Amazon DynamoDB.", 1)
  /\ Rag.generation_step Stubs.answers_at_once ["A"; "B"] "}" 0
     = Some (Raise (ValueError "Single '}' encountered in format string"), 0)
  /\ (exists msg,
        Rag.generation_step Stubs.answers_at_once ["A"; "B"] "{" 0
        = Some (Raise (ValueError msg), 0)).
Proof.
  pose proof (second_substitution_reads_braces_as_fields Stubs.answers_at_once 0 ["A"; "B"])
    as (Hstep & Hplain & Hclosing & Hopening & _).
  split; [|split].
  - rewrite Hstep, (Hplain "Q" eq_refl eq_refl). reflexivity.
  - rewrite Hstep.
    rewrite (Hclosing "}"
               (Rag.before_context +:+ PyStr.py_str_list ["A"; "B"] +:+ Rag.before_question)
               Rag.after_question eq_refl eq_refl eq_refl).
    reflexivity.
  - destruct (Hopening "{"
                (Rag.before_context +:+ PyStr.py_str_list ["A"; "B"] +:+ Rag.before_question)
                Rag.after_question eq_refl eq_refl eq_refl) as [msg Hmsg].
    exists msg. rewrite Hstep, Hmsg. reflexivity.
Defined.

(** C10 as stated fails both ways for the query [{1}]: it has braces, yet
    the generation step raises nothing and returns the answer, and the
    second substitution leaves the prompt exactly as it was. *)
Lemma braces_that_name_the_query_change_nothing :
  PyStr.has_brace "{1}" = true
  /\ Rag.generation_step Stubs.answers_at_once ["A"; "B"] "{1}" 0
     = Some (Return "Use Amazon DynamoDB.", 1)
  /\ Rag.message_of ["A"; "B"] "{1}" = Some (Return (Rag.prompt ["A"; "B"] "{1}")).
Proof. repeat split; vm_compute; reflexivity. Qed.

(** * Further properties of the notebooks *)

(** ** What the collection wait ends with *)

Section CollectionWaitEnds.
Import Provisioner.Collection.
Variable backend : nat -> result (list collection_detail).

Lemma poll_finished_inv fuel : forall k0 response slept out s,
  backend k0 = Return response ->
  poll fuel backend (S k0) response slept = Finished out s ->
  exists d,
    s = slept + 30 * d
    /\ (forall j, j < d -> is_creating (backend (k0 + j)) = true)
    /\ is_creating (backend (k0 + d)) = false
    /\ out = leaves_with (backend (k0 + d)).
Proof.
  induction fuel as [|fuel IH]; intros k0 response slept out s Hk0 Hrun;
    rewrite poll_unfold in Hrun;
    assert (Hcur : is_creating (backend (k0 + 0))
                   = match first_status response with
                     | Return st => String.eqb st "CREATING"
                     | Raise _ => false
                     end)
      by (replace (k0 + 0) with k0 by lia; rewrite Hk0; reflexivity);
    assert (Hleave : leaves_with (backend (k0 + 0))
                     = match first_status response with
                       | Return _ => Return response
                       | Raise e => Raise e
                       end)
      by (replace (k0 + 0) with k0 by lia; rewrite Hk0; reflexivity);
    destruct (first_status response) as [st|e];
    try (inversion Hrun; subst; exists 0;
         repeat split; [lia | intros j Hj; lia | exact Hcur | symmetry; exact Hleave]);
    destruct (String.eqb st "CREATING") eqn:Hst;
    try (inversion Hrun; subst; exists 0;
         repeat split; [lia | intros j Hj; lia | exact Hcur | symmetry; exact Hleave]);
    try discriminate.
  destruct (backend (S k0)) as [response'|e] eqn:Hnext.
  - destruct (IH (S k0) response' (slept + 30) out s Hnext Hrun)
      as (d & Hs & Hpre & Hend & Hout).
    exists (S d). repeat split.
    + lia.
    + intros j Hj. destruct j as [|j]; [exact Hcur|].
      replace (k0 + S j) with (S k0 + j) by lia. apply Hpre. lia.
    + replace (k0 + S d) with (S k0 + d) by lia. exact Hend.
    + replace (k0 + S d) with (S k0 + d) by lia. exact Hout.
  - inversion Hrun; subst. exists 1. repeat split.
    + intros j Hj. replace j with 0 by lia. exact Hcur.
    + replace (k0 + 1) with (S k0) by lia. rewrite Hnext. reflexivity.
    + replace (k0 + 1) with (S k0) by lia. rewrite Hnext. reflexivity.
Qed.
End CollectionWaitEnds.

(** X1.  When the collection wait ends, it ends at the first answer that is
    not [CREATING]: after thirty seconds for each answer before it, and with
    that answer, or with the error raised by asking for it or reading it.  A
    response it hands back has a first collection whose status is anything
    but [CREATING]: the cell goes on to print that the collection was
    created whether the status is [ACTIVE] or [FAILED]. *)
Theorem collection_wait_ends_at_the_first_settled_answer
    (backend : nat -> result (list Provisioner.Collection.collection_detail))
    (fuel : nat) (out : result (list Provisioner.Collection.collection_detail)) (s : nat) :
  Provisioner.Collection.wait_for_collection fuel backend = Finished out s ->
  (exists n,
      s = 30 * n
      /\ (forall k, k < n -> Provisioner.Collection.is_creating (backend k) = true)
      /\ Provisioner.Collection.is_creating (backend n) = false
      /\ out = Provisioner.Collection.leaves_with (backend n))
  /\ (forall response,
      out = Return response ->
      exists st,
        Provisioner.Collection.first_status response = Return st
        /\ String.eqb st "CREATING" = false).
Proof.
  intros Hrun.
  assert (Hends : exists n,
             s = 30 * n
             /\ (forall k, k < n -> Provisioner.Collection.is_creating (backend k) = true)
             /\ Provisioner.Collection.is_creating (backend n) = false
             /\ out = Provisioner.Collection.leaves_with (backend n)).
  { unfold Provisioner.Collection.wait_for_collection in Hrun.
    destruct (backend 0) as [response|e] eqn:H0.
    - destruct (poll_finished_inv backend fuel 0 response 0 out s H0 Hrun)
        as (d & Hs & Hpre & Hend & Hout).
      exists d. repeat split; assumption.
    - inversion Hrun; subst. exists 0. rewrite H0. repeat split. intros k Hk. lia. }
  split; [exact Hends|].
  intros response ->. destruct Hends as (n & _ & _ & Hend & Hout).
  unfold Provisioner.Collection.leaves_with, Provisioner.Collection.is_creating in *.
  destruct (backend n) as [answer|e]; [|discriminate].
  destruct (Provisioner.Collection.first_status answer) as [st|e] eqn:Hst; [|discriminate].
  inversion Hout; subst. exists st. split; [exact Hst | exact Hend].
Qed.

(** A collection that has failed by the second answer is handed back after
    one sleep, like a created one. *)
Lemma collection_wait_ends_at_the_first_settled_answer_witness :
  Provisioner.Collection.wait_for_collection 3 Scenarios.fails_after_one
  = Finished (Return [Stubs.detail "FAILED"]) 30
  /\ exists st,
       Provisioner.Collection.first_status [Stubs.detail "FAILED"] = Return st
       /\ String.eqb st "CREATING" = false.
Proof.
  split; [reflexivity|].
  apply (proj2 (collection_wait_ends_at_the_first_settled_answer
                  Scenarios.fails_after_one 3 (Return [Stubs.detail "FAILED"]) 30
                  eq_refl)).
  reflexivity.
Defined.

(** ** Which document lands in which file *)

Lemma filenames_NoDup : NoDup Documents.filenames.
Proof. apply (bool_decide_unpack _). vm_compute. exact I. Qed.

Section DownloadStores.
Import Documents.
Variable urlretrieve : string -> result string.

(** The loop writes to no path but [data_root] followed by one of the file
    names from its index on. *)
Lemma download_from_keeps : forall rest idx d path,
  (forall j name, idx <= j -> filenames !! j = Some name -> path <> data_root +:+ name) ->
  local (download_from urlretrieve idx rest d).2 !! path = local d !! path.
Proof.
  induction rest as [|url rest IH]; intros idx d path Hother; [reflexivity|].
  cbn [download_from]. unfold getitem.
  destruct (filenames !! idx) as [filename|] eqn:Hname; [|reflexivity].
  destruct (urlretrieve url) as [document|e]; [|reflexivity].
  rewrite IH.
  - cbn [local]. apply lookup_insert_ne. intros Heq. symmetry in Heq.
    exact (Hother idx filename (Nat.le_refl idx) Hname Heq).
  - intros j name Hj. apply Hother. lia.
Qed.

(** When no download fails, the document of the URL number [j] of the rest
    is in the file named by the file name number [idx + j]. *)
Lemma download_from_stores :
  (forall url, is_Return (urlretrieve url) = true) ->
  forall rest idx d j name url document,
    filenames !! (idx + j) = Some name ->
    rest !! j = Some url ->
    urlretrieve url = Return document ->
    local (download_from urlretrieve idx rest d).2 !! (data_root +:+ name) = Some document.
Proof.
  intros Hok. induction rest as [|first rest IH];
    intros idx d j name url document Hname Hurl Hdoc; [discriminate|].
  cbn [download_from]. unfold getitem. destruct j as [|j].
  - replace (idx + 0) with idx in Hname by lia. cbn in Hurl. inversion Hurl; subst first.
    rewrite Hname, Hdoc. rewrite download_from_keeps.
    + cbn [local]. apply lookup_insert_eq.
    + intros j other Hj Hother Heq. apply (inj (String.append data_root)) in Heq. subst other.
      pose proof (NoDup_lookup _ _ _ _ filenames_NoDup Hname Hother). lia.
  - assert (Hhere : is_Some (filenames !! idx)).
    { apply lookup_lt_is_Some. apply lookup_lt_Some in Hname. lia. }
    destruct Hhere as [filename Hfilename]. rewrite Hfilename.
    pose proof (Hok first) as Hfirst.
    destruct (urlretrieve first) as [document0|e]; [|discriminate].
    apply (IH (S idx) _ j name url document).
    + replace (S idx + j) with (idx + S j) by lia. exact Hname.
    + exact Hurl.
    + exact Hdoc.
Qed.
End DownloadStores.



(** ** What the upload puts where *)

Section UploadFacts.
Import Documents.
Variable selected : string -> bool.

Lemma upload_fold_other (bucket : gmap string string) (key : string)
    (entries : list (string * string)) :
  (forall p c, (p, c) ∈ entries -> selected p = true -> basename p <> key) ->
  foldr (fun entry objects =>
           if selected entry.1
           then <[basename entry.1 := entry.2]> objects
           else objects) bucket entries !! key
  = bucket !! key.
Proof.
  induction entries as [|[p c] entries IH]; intros Hother; [reflexivity|].
  cbn [foldr fst snd].
  assert (Hrest : forall p' c', (p', c') ∈ entries ->
                                 selected p' = true -> basename p' <> key).
  { intros p' c' Hin. apply (Hother p' c'). right. exact Hin. }
  destruct (selected p) eqn:Hselected; [|exact (IH Hrest)].
  rewrite lookup_insert_ne; [exact (IH Hrest)|].
  apply (Hother p c); [left | exact Hselected].
Qed.

Lemma upload_fold_unique (bucket : gmap string string) (p c : string)
    (entries : list (string * string)) :
  (p, c) ∈ entries ->
  selected p = true ->
  (forall p' c', (p', c') ∈ entries -> selected p' = true ->
                 basename p' = basename p -> p' = p /\ c' = c) ->
  foldr (fun entry objects =>
           if selected entry.1
           then <[basename entry.1 := entry.2]> objects
           else objects) bucket entries !! basename p
  = Some c.
Proof.
  intros Hin Hselected. induction entries as [|[p' c'] entries IH]; intros Hunique.
  - inversion Hin.
  - cbn [foldr fst snd].
    assert (Hrest : forall q r, (q, r) ∈ entries -> selected q = true ->
                                basename q = basename p -> q = p /\ r = c).
    { intros q r Hq. apply (Hunique q r). right. exact Hq. }
    destruct (selected p') eqn:Hselected'.
    + destruct (decide (basename p' = basename p)) as [Hsame|Hdiff].
      * destruct (Hunique p' c' ltac:(left) Hselected' Hsame) as [-> ->].
        apply lookup_insert_eq.
      * rewrite lookup_insert_ne by exact Hdiff.
        apply IH; [|exact Hrest].
        apply elem_of_cons in Hin as [Heq|Hin]; [|exact Hin].
        inversion Heq; subst. contradiction.
    + apply IH; [|exact Hrest].
      apply elem_of_cons in Hin as [Heq|Hin]; [|exact Hin].
      inversion Heq; subst. congruence.
Qed.

(** A file the walk reaches is spelled with the directory first. *)
Lemma strip_prefix_prefix pre : forall s relative,
  strip_prefix pre s = Some relative -> String.prefix pre s = true.
Proof.
  induction pre as [|a pre IH]; intros s relative Hs.
  - destruct s; reflexivity.
  - destruct s as [|b s]; [discriminate|]. cbn [strip_prefix] in Hs.
    destruct (Ascii.eqb_spec a b) as [->|_]; [|discriminate].
    cbn [String.prefix]. destruct (ascii_dec b b) as [_|Hne]; [|contradiction].
    exact (IH s relative Hs).
Qed.

Lemma upload_fold_none (bucket : gmap string string) (entries : list (string * string)) :
  (forall p c, (p, c) ∈ entries -> selected p = false) ->
  foldr (fun entry objects =>
           if selected entry.1
           then <[basename entry.1 := entry.2]> objects
           else objects) bucket entries
  = bucket.
Proof.
  induction entries as [|[p c] entries IH]; intros Hnone; [reflexivity|].
  cbn [foldr fst snd]. rewrite (Hnone p c) by left.
  apply IH. intros p' c' Hin. apply (Hnone p' c'). right. exact Hin.
Qed.

Lemma strip_prefix_same pre : strip_prefix pre pre = Some "".
Proof.
  induction pre as [|a pre IH]; [reflexivity|].
  cbn [strip_prefix]. rewrite Ascii.eqb_refl. exact IH.
Qed.

(** The directory itself is not a file in it. *)
Lemma walked_not_the_directory path : walked path (walk_prefix path) = false.
Proof.
  unfold walked. rewrite strip_prefix_same. cbn. apply andb_false_r.
Qed.

Lemma walked_prefix path p :
  walked path p = true -> String.prefix (walk_prefix path) p = true.
Proof.
  unfold walked. intros H. apply andb_true_iff in H as [_ H].
  destruct (strip_prefix (walk_prefix path) p) as [relative|] eqn:Hs; [|discriminate].
  exact (strip_prefix_prefix _ _ _ Hs).
Qed.
End UploadFacts.

Lemma basename_from_no_slash (name : string) : forall acc,
  PyStr.contains_char "/" name = false ->
  Documents.basename_from acc name = acc +:+ name.
Proof.
  induction name as [|c name IH]; intros acc Hname.
  - cbn. rewrite append_nil_r. reflexivity.
  - cbn [PyStr.contains_char] in Hname. apply orb_false_iff in Hname as [Hc Hname].
    cbn [Documents.basename_from]. rewrite Hc, (IH _ Hname), append_assoc. reflexivity.
Qed.

(** The name of a file directly in the data directory is its base name. *)
Lemma basename_in_data_root (name : string) :
  PyStr.contains_char "/" name = false ->
  Documents.basename (Documents.data_root +:+ name) = name.
Proof.
  intros Hname.
  change (Documents.basename (Documents.data_root +:+ name))
    with (Documents.basename_from "" name).
  apply basename_from_no_slash. exact Hname.
Qed.



(** ** From the URL to the bucket *)

Lemma filenames_without_slash (name : string) :
  name ∈ Documents.filenames -> PyStr.contains_char "/" name = false.
Proof.
  intros Hin.
  assert (Hall : Forall (fun n => PyStr.contains_char "/" n = false) Documents.filenames).
  { repeat constructor. }
  rewrite Forall_forall in Hall. apply Hall. exact Hin.
Qed.

(** The walk from the data directory reaches the file of each file name. *)
Lemma filenames_walked (name : string) :
  name ∈ Documents.filenames ->
  Documents.walked Documents.data_root (Documents.data_root +:+ name) = true.
Proof.
  intros Hin.
  assert (Hall : Forall (fun n => Documents.walked Documents.data_root
                                    (Documents.data_root +:+ n) = true)
                        Documents.filenames).
  { repeat constructor. }
  rewrite Forall_forall in Hall. apply Hall. exact Hin.
Qed.

(** A file that is on disk after the loop was there before, or is named by
    one of the file names. *)
Lemma download_from_files (urlretrieve : string -> result string)
    (rest : list string) (idx : nat) (d : Documents.disk) (path : string) :
  is_Some (Documents.local (Documents.download_from urlretrieve idx rest d).2 !! path) ->
  is_Some (Documents.local d !! path)
  \/ exists name, name ∈ Documents.filenames /\ path = Documents.data_root +:+ name.
Proof.
  intros Hsome.
  destruct (decide (Exists (fun name => path = Documents.data_root +:+ name)
                           Documents.filenames)) as [Hnamed|Hother].
  - right. apply Exists_exists in Hnamed as (name & Hin & Heq). exists name. split; assumption.
  - left. rewrite download_from_keeps in Hsome; [exact Hsome|].
    intros j name _ Hname Heq. apply Hother. apply Exists_exists.
    exists name. split; [|exact Heq]. apply list_elem_of_lookup. exists j. exact Hname.
Qed.



(** ** What a run of the storage cells leaves behind *)

Section StorageRuns.
Import Provisioner.
Variable policies : Type.
Variable create_policies_in_oss : string -> string -> M policies.

(** After the bucket cell the bucket exists, and nothing else has changed. *)
Lemma ensure_bucket_leaves bucket region w :
  exists w1,
    ensure_bucket bucket region w = (Return tt, w1)
    /\ bucket ∈ buckets w1
    /\ collections w1 = collections w /\ indices w1 = indices w.
Proof.
  destruct (decide (bucket ∈ buckets w)) as [Hin|Hnot].
  - rewrite (ensure_bucket_present bucket region w Hin).
    eexists. split; [reflexivity|]. repeat split. exact Hin.
  - rewrite (ensure_bucket_absent bucket region w Hnot).
    eexists. split; [reflexivity|]. repeat split. cbn. set_solver.
Qed.

(** The index cell never raises; after it the index exists, and the buckets
    and collections are as before. *)
Lemma create_index_leaves index w :
  (create_index index w).1 = Return tt
  /\ index ∈ indices (create_index index w).2
  /\ buckets (create_index index w).2 = buckets w
  /\ collections (create_index index w).2 = collections w.
Proof.
  unfold create_index, try_except, bind, indices_create, interactive_sleep.
  destruct (decide (index ∈ indices w)) as [Hin|Hnot]; cbn; repeat split.
  - exact Hin.
  - set_solver.
Qed.

Lemma provision_storage_new bucket region name role index w :
  PolicyHelper.keeps_storage create_policies_in_oss name role ->
  name ∉ collections w ->
  let run := provision_storage policies create_policies_in_oss
               bucket region name role index w in
  run.1 = Return tt
  /\ bucket ∈ buckets run.2 /\ name ∈ collections run.2 /\ index ∈ indices run.2.
Proof.
  intros Hhelper Hnew run. subst run. unfold provision_storage, create_vector_store, bind.
  destruct (ensure_bucket_leaves bucket region w) as (w1 & -> & Hb & Hc1 & Hi1).
  destruct (Hhelper w1) as (p & w2 & -> & Hb2 & Hc2 & Hi2).
  unfold create_collection.
  destruct (decide (name ∈ collections w2)) as [Hin|_].
  { rewrite Hc2, Hc1 in Hin. contradiction. }
  cbn [ret fst snd].
  match goal with
  | |- context [create_index index ?w3] =>
      destruct (create_index_leaves index w3) as (Hr & Hidx & Hbk & Hck);
      destruct (create_index index w3) as [r wf]; cbn [fst snd] in Hr, Hidx, Hbk, Hck |- *
  end.
  subst r. split; [reflexivity|]. split; [|split].
  - rewrite Hbk. cbn. rewrite Hb2. exact Hb.
  - rewrite Hck. cbn. apply elem_of_union_l, elem_of_singleton. reflexivity.
  - exact Hidx.
Qed.

Lemma provision_storage_again bucket region name role index w :
  PolicyHelper.keeps_storage create_policies_in_oss name role ->
  name ∈ collections w ->
  let run := provision_storage policies create_policies_in_oss
               bucket region name role index w in
  run.1 = Raise (ClientError "ConflictException")
  /\ bucket ∈ buckets run.2
  /\ collections run.2 = collections w /\ indices run.2 = indices w.
Proof.
  intros Hhelper Hold run. subst run. unfold provision_storage, create_vector_store, bind.
  destruct (ensure_bucket_leaves bucket region w) as (w1 & -> & Hb & Hc1 & Hi1).
  destruct (Hhelper w1) as (p & w2 & -> & Hb2 & Hc2 & Hi2).
  unfold create_collection.
  destruct (decide (name ∈ collections w2)) as [_|Hnot].
  2: { rewrite Hc2, Hc1 in Hnot. contradiction. }
  cbn. split; [reflexivity|]. split; [rewrite Hb2; exact Hb|].
  split; congruence.
Qed.
End StorageRuns.

(** X5.  A first run: when the policy helper returns and leaves the storage
    alone, and the collection does not exist yet, the three cells end
    normally, and afterwards the bucket, the collection and the index all
    exist, whether or not the bucket and the index existed before. *)
Theorem first_run_leaves_bucket_collection_and_index
    (policies : Type) (create_policies_in_oss : string -> string -> M policies)
    (bucket region name role index : string) (w : cloud) :
  PolicyHelper.keeps_storage create_policies_in_oss name role ->
  name ∉ collections w ->
  (Provisioner.provision_storage policies create_policies_in_oss
     bucket region name role index w).1 = Return tt
  /\ bucket ∈ buckets (Provisioner.provision_storage policies create_policies_in_oss
                         bucket region name role index w).2
  /\ name ∈ collections (Provisioner.provision_storage policies create_policies_in_oss
                           bucket region name role index w).2
  /\ index ∈ indices (Provisioner.provision_storage policies create_policies_in_oss
                        bucket region name role index w).2.
Proof. intros Hhelper Hnew. apply provision_storage_new; assumption. Qed.

(** On an empty cloud the run ends normally and has slept the sixty seconds
    of the index cell. *)
Lemma first_run_leaves_bucket_collection_and_index_witness :
  (Provisioner.provision_storage unit Stubs.policies_ok
     "bedrock-kb-us-west-2-123456789012" "us-west-2" "bedrock-sample-rag-200" "role"
     "bedrock-sample-index-200" Stubs.nothing_exists).1 = Return tt
  /\ slept Stubs.after_first_run = 60.
Proof.
  split; [|reflexivity].
  apply (first_run_leaves_bucket_collection_and_index unit Stubs.policies_ok
           "bedrock-kb-us-west-2-123456789012" "us-west-2" "bedrock-sample-rag-200" "role"
           "bedrock-sample-index-200" Stubs.nothing_exists).
  - intros w. exists tt, w. repeat split.
  - cbn. apply not_elem_of_empty.
Defined.

(** X6.  A run against an existing collection: when the policy helper
    returns and leaves the storage alone, the cells stop at
    [create_collection] with the service's conflict error.  The bucket cell
    has run, so the bucket exists; the index cell has not, so the indices are
    as before: a missing index is not created by running the cells again. *)
Theorem run_on_an_existing_collection_stops_before_the_index
    (policies : Type) (create_policies_in_oss : string -> string -> M policies)
    (bucket region name role index : string) (w : cloud) :
  PolicyHelper.keeps_storage create_policies_in_oss name role ->
  name ∈ collections w ->
  (Provisioner.provision_storage policies create_policies_in_oss
     bucket region name role index w).1 = Raise (ClientError "ConflictException")
  /\ bucket ∈ buckets (Provisioner.provision_storage policies create_policies_in_oss
                         bucket region name role index w).2
  /\ collections (Provisioner.provision_storage policies create_policies_in_oss
                    bucket region name role index w).2 = collections w
  /\ indices (Provisioner.provision_storage policies create_policies_in_oss
                bucket region name role index w).2 = indices w.
Proof. intros Hhelper Hold. apply provision_storage_again; assumption. Qed.

(** With the collection there and the index missing, the run stops and the
    index is still missing. *)
Lemma run_on_an_existing_collection_stops_before_the_index_witness :
  (Provisioner.provision_storage unit Stubs.policies_ok
     "bedrock-kb-us-west-2-123456789012" "us-west-2" "bedrock-sample-rag-200" "role"
     "bedrock-sample-index-200" Scenarios.index_missing).1
  = Raise (ClientError "ConflictException")
  /\ indices (Provisioner.provision_storage unit Stubs.policies_ok
                "bedrock-kb-us-west-2-123456789012" "us-west-2" "bedrock-sample-rag-200"
                "role" "bedrock-sample-index-200" Scenarios.index_missing).2 = ∅.
Proof.
  pose proof (run_on_an_existing_collection_stops_before_the_index unit Stubs.policies_ok
                "bedrock-kb-us-west-2-123456789012" "us-west-2" "bedrock-sample-rag-200"
                "role" "bedrock-sample-index-200" Scenarios.index_missing) as Hrun.
  destruct Hrun as (Hstop & _ & _ & Hindices).
  - intros w. exists tt, w. repeat split.
  - cbn. apply elem_of_singleton. reflexivity.
  - split; [exact Hstop | exact Hindices].
Defined.

(** ** The knowledge base cells after a creation that failed *)

(** X7.  The cell that creates the knowledge base lets no exception of the
    creation out: it stops only on reading [kb], with [NameError], and does
    so exactly when the creation gave no knowledge base and [kb] was not
    bound before.  When the creation gives one, [kb] is bound to it.  When
    it gives none and [kb] is still bound from an earlier run, the cell goes
    on with that old value, and the data source request that follows is made
    for the old knowledge base. *)
Theorem create_kb_cell_hides_a_failed_creation
    (knowledge_base : Type) (knowledgeBaseId : knowledge_base -> string)
    (k : KnowledgeBase.kernel knowledge_base) (name description bucket_name : string) :
  ((KnowledgeBase.create_kb_cell knowledge_base k).2 = None
   \/ (KnowledgeBase.create_kb_cell knowledge_base k).2 = Some (KnowledgeBase.NameError "kb"))
  /\ ((KnowledgeBase.create_kb_cell knowledge_base k).2 = Some (KnowledgeBase.NameError "kb")
      <-> KnowledgeBase.kb knowledge_base k = None
          /\ forall created,
               KnowledgeBase.create_knowledge_base_func knowledge_base k
               <> Some (Return created))
  /\ (forall created,
        KnowledgeBase.create_knowledge_base_func knowledge_base k = Some (Return created) ->
        KnowledgeBase.kb knowledge_base (KnowledgeBase.create_kb_cell knowledge_base k).1
        = Some created)
  /\ (forall old,
        KnowledgeBase.kb knowledge_base k = Some old ->
        (forall created,
            KnowledgeBase.create_knowledge_base_func knowledge_base k
            <> Some (Return created)) ->
        (KnowledgeBase.create_kb_cell knowledge_base k).2 = None
        /\ KnowledgeBase.kb knowledge_base (KnowledgeBase.create_kb_cell knowledge_base k).1
           = Some old
        /\ KnowledgeBase.data_source_cell_request knowledge_base knowledgeBaseId
             name description bucket_name (KnowledgeBase.create_kb_cell knowledge_base k).1
           = inl (DataSource.create_data_source_request name description
                    (knowledgeBaseId old) bucket_name)).
Proof.
  destruct k as [create bound].
  unfold KnowledgeBase.create_kb_cell, KnowledgeBase.data_source_cell_request.
  cbn [fst snd KnowledgeBase.kb KnowledgeBase.create_knowledge_base_func].
  split; [|split; [|split]].
  - destruct create as [[created|e]|], bound as [old|]; cbn; auto.
  - split.
    + intros Hstop.
      destruct create as [[created|e]|], bound as [old|]; cbn in Hstop; try discriminate;
        (split; [reflexivity | intros created' H; discriminate H]).
    + intros [-> Hnone]. destruct create as [[created|e]|]; cbn; try reflexivity.
      exfalso. exact (Hnone created eq_refl).
  - intros created ->. reflexivity.
  - intros old -> Hnone. destruct create as [[created|e]|]; cbn.
    + exfalso. exact (Hnone created eq_refl).
    + repeat split.
    + repeat split.
Qed.

(** In a kernel where no cell has defined the function, the cell stops with
    [NameError]; in one that holds the knowledge base of an earlier run and
    where the creation is refused, the data source is asked for in the old
    knowledge base. *)
Lemma create_kb_cell_hides_a_failed_creation_witness :
  (KnowledgeBase.create_kb_cell string Scenarios.fresh_kernel).2
  = Some (KnowledgeBase.NameError "kb")
  /\ KnowledgeBase.data_source_cell_request string (fun id => id) "ds" "documents" "bucket"
       (KnowledgeBase.create_kb_cell string Scenarios.stale_kernel).1
     = inl (DataSource.create_data_source_request "ds" "documents" "KBOLD" "bucket").
Proof.
  pose proof (create_kb_cell_hides_a_failed_creation string (fun id => id)
                Scenarios.fresh_kernel "ds" "documents" "bucket") as (_ & Hstop & _).
  pose proof (create_kb_cell_hides_a_failed_creation string (fun id => id)
                Scenarios.stale_kernel "ds" "documents" "bucket") as (_ & _ & _ & Hstale).
  split.
  - apply Hstop. split; [reflexivity|]. intros created H. discriminate H.
  - apply (Hstale "KBOLD" eq_refl). intros created H. discriminate H.
Defined.

(** ** The RAG cells together *)

Section PipelineFacts.
Import Rag Pipeline.
Variable retrieval : retrieve_request -> result retrieve_response.
Variable generation : nat -> payload -> result response_body.

(** Without braces the message is the prompt, and the model is invoked
    with it. *)
Lemma generation_step_without_braces contexts query n :
  existsb PyStr.has_brace contexts = false ->
  PyStr.has_brace query = false ->
  generation_step generation contexts query n
  = Some (generate generation (sonnet_payload (prompt contexts query)) n).
Proof.
  intros Hcontexts Hquery. unfold generation_step, message_of, PyStr.py_format.
  rewrite format_literal_without_braces; [reflexivity|].
  rewrite has_brace_prompt, Hcontexts, Hquery. reflexivity.
Qed.
End PipelineFacts.

(** X8.  Whatever [str.format] returns or raises for the prompt, the RAG
    cells send exactly one retrieval request, for five results, and call
    [invoke_model] at most once.  They never call it after a retrieval that
    failed, whose error they raise; and they never end with a text without
    having called it.  Where the model of [str.format] says what the second
    substitution gives, this run is the run of the detailed cells. *)
Theorem answer_asks_once_and_invokes_at_most_once
    (str_format : string -> list string -> string -> result string)
    (retrieval : Rag.retrieve_request -> result Rag.retrieve_response)
    (generation : nat -> Rag.payload -> result Rag.response_body)
    (query kb_id : string) (c : Pipeline.clients) :
  let request := {| Rag.retrievalQuery_text := query;
                    Rag.knowledgeBaseId := kb_id;
                    Rag.numberOfResults := 5;
                    Rag.overrideSearchType := "HYBRID" |} in
  let run := Pipeline.run_cells retrieval generation str_format query kb_id c in
  Pipeline.sent run.2 = Pipeline.sent c ++ [request]
  /\ (Pipeline.invocations run.2 = Pipeline.invocations c
      \/ Pipeline.invocations run.2 = S (Pipeline.invocations c))
  /\ (forall e, retrieval request = Raise e ->
        run.1 = Raise e /\ Pipeline.invocations run.2 = Pipeline.invocations c)
  /\ (forall text, run.1 = Return text ->
        Pipeline.invocations run.2 = S (Pipeline.invocations c))
  /\ (Pipeline.follows_model str_format ->
      forall detailed,
        Pipeline.answer retrieval generation query kb_id c = Some detailed ->
        run = detailed).
Proof.
  intros request run. subst run.
  unfold Pipeline.run_cells, Pipeline.answer, Rag.retrieved_passages, Rag.retrieve,
    Rag.client_retrieve.
  fold request.
  destruct (retrieval request) as [response|e] eqn:Hretrieval.
  - cbn [Rag.retrievalResults fst snd].
    set (contexts := Rag.get_contexts (Rag.retrievalResults response)).
    split; [|split; [|split; [|split]]].
    + destruct (str_format (Rag.prompt contexts query) contexts query) as [text|e];
        [|reflexivity].
      unfold Rag.generate, Rag.invoke_model.
      destruct (generation _ _); reflexivity.
    + destruct (str_format (Rag.prompt contexts query) contexts query) as [text|e];
        [|left; reflexivity].
      unfold Rag.generate, Rag.invoke_model.
      destruct (generation _ _); right; reflexivity.
    + intros e He. discriminate He.
    + intros text. destruct (str_format (Rag.prompt contexts query) contexts query)
        as [formatted|e]; [|discriminate].
      unfold Rag.generate, Rag.invoke_model.
      destruct (generation _ _); intros _; reflexivity.
    + intros Hmodel detailed. unfold Rag.generation_step.
      destruct (Rag.message_of contexts query) as [r|] eqn:Hmessage; [|discriminate].
      rewrite (Hmodel contexts query r Hmessage).
      destruct r as [text|e].
      * destruct (Rag.generate generation (Rag.sonnet_payload text) (Pipeline.invocations c))
          as [outcome n']. intros H. inversion H. reflexivity.
      * intros H. inversion H. reflexivity.
  - cbn [fst snd Pipeline.sent Pipeline.invocations].
    split; [reflexivity|]. split; [left; reflexivity|]. split; [|split].
    + intros e' He'. inversion He'; subst. split; reflexivity.
    + intros text Htext. discriminate Htext.
    + intros _ detailed H. inversion H. reflexivity.
Qed.

(** Against a service that does not know the knowledge base, the cells raise
    its error after one request and no call of the model.  With the query
    [{0!r}], which the model of [str.format] does not render, they still
    send one request and call the model once. *)
Lemma answer_asks_once_and_invokes_at_most_once_witness :
  Pipeline.run_cells Scenarios.unknown_knowledge_base Stubs.answers_at_once
    Scenarios.format_with_repr "What is S3?" "KB1" (Pipeline.mkClients [] 0)
  = (Raise (ClientError "ResourceNotFoundException"),
     Pipeline.mkClients
       [{| Rag.retrievalQuery_text := "What is S3?"; Rag.knowledgeBaseId := "KB1";
           Rag.numberOfResults := 5; Rag.overrideSearchType := "HYBRID" |}] 0)
  /\ Pipeline.answer Stubs.three_passages Stubs.answers_at_once
       "{0!r}" "KB1" (Pipeline.mkClients [] 0) = None
  /\ (Pipeline.run_cells Stubs.three_passages Stubs.answers_at_once
        Scenarios.format_with_repr "{0!r}" "KB1" (Pipeline.mkClients [] 0)).1
     = Return "Use Amazon DynamoDB."
  /\ Pipeline.invocations
       (Pipeline.run_cells Stubs.three_passages Stubs.answers_at_once
          Scenarios.format_with_repr "{0!r}" "KB1" (Pipeline.mkClients [] 0)).2
     = 1.
Proof.
  split; [reflexivity|]. split; [vm_compute; reflexivity|].
  split; [vm_compute; reflexivity|].
  pose proof (answer_asks_once_and_invokes_at_most_once Scenarios.format_with_repr
                Stubs.three_passages Stubs.answers_at_once "{0!r}" "KB1"
                (Pipeline.mkClients [] 0)) as (_ & _ & _ & Htext & _).
  apply (Htext "Use Amazon DynamoDB."). vm_compute. reflexivity.
Defined.

(** X9.  When the retrieval answers with passages whose texts, like the
    query, have no brace, the RAG cells invoke the model exactly once, with
    the prompt built from the passages' texts in the service's order and the
    query, 512 tokens at most, temperature 0.5 and top-p 1; and they end with
    the text of the answer's first content block, or with the error of the
    invocation or of reading the answer.  This holds for an answer without
    passages too: the model is still invoked, with an empty list in the
    context slot. *)
Theorem answer_invokes_the_model_with_the_prompt_of_the_passages
    (retrieval : Rag.retrieve_request -> result Rag.retrieve_response)
    (generation : nat -> Rag.payload -> result Rag.response_body)
    (query kb_id : string) (c : Pipeline.clients) (passages : list Rag.retrieval_result) :
  let request := {| Rag.retrievalQuery_text := query;
                    Rag.knowledgeBaseId := kb_id;
                    Rag.numberOfResults := 5;
                    Rag.overrideSearchType := "HYBRID" |} in
  let body := {| Rag.anthropic_version := "bedrock-2023-05-31";
                 Rag.max_tokens := 512;
                 Rag.message_text := Rag.prompt (map Rag.content_text passages) query;
                 Rag.temperature := 1 # 2;
                 Rag.top_p := 1 |} in
  retrieval request = Return {| Rag.retrievalResults := passages |} ->
  existsb PyStr.has_brace (map Rag.content_text passages) = false ->
  PyStr.has_brace query = false ->
  Pipeline.answer retrieval generation query kb_id c
  = Some (match generation (Pipeline.invocations c) body with
          | Return response => Rag.response_text response
          | Raise e => Raise e
          end,
          Pipeline.mkClients (Pipeline.sent c ++ [request]) (S (Pipeline.invocations c))).
Proof.
  intros request body Hretrieval Hpassages Hquery.
  unfold Pipeline.answer, Rag.retrieved_passages, Rag.retrieve, Rag.client_retrieve.
  fold request. rewrite Hretrieval. cbn [Rag.retrievalResults].
  rewrite get_contexts_map.
  rewrite generation_step_without_braces by assumption.
  unfold Rag.generate, Rag.invoke_model. fold body.
  change (Rag.sonnet_payload (Rag.prompt (map Rag.content_text passages) query)) with body.
  destruct (generation (Pipeline.invocations c) body); reflexivity.
Qed.

(** Three passages give the answer of the model; no passage does too, and
    the prompt then holds the empty list. *)
Lemma answer_invokes_the_model_with_the_prompt_of_the_passages_witness :
  Pipeline.answer Stubs.three_passages Stubs.answers_at_once
    "What is S3?" "KB1" (Pipeline.mkClients [] 0)
  = Some (Return "Use Amazon DynamoDB.",
          Pipeline.mkClients
            [{| Rag.retrievalQuery_text := "What is S3?"; Rag.knowledgeBaseId := "KB1";
                Rag.numberOfResults := 5; Rag.overrideSearchType := "HYBRID" |}] 1)
  /\ Pipeline.answer Stubs.no_passages Stubs.answers_at_once
       "What is S3?" "KB1" (Pipeline.mkClients [] 0)
     = Some (Return "Use Amazon DynamoDB.",
             Pipeline.mkClients
               [{| Rag.retrievalQuery_text := "What is S3?"; Rag.knowledgeBaseId := "KB1";
                   Rag.numberOfResults := 5; Rag.overrideSearchType := "HYBRID" |}] 1)
  /\ PyStr.substringb ("<context>" +:+ PyStr.nl +:+ "[]" +:+ PyStr.nl +:+ "</context>")
       (Rag.prompt (map Rag.content_text []) "What is S3?") = true.
Proof.
  split; [|split; [|vm_compute; reflexivity]].
  - apply (answer_invokes_the_model_with_the_prompt_of_the_passages
             Stubs.three_passages Stubs.answers_at_once "What is S3?" "KB1"
             (Pipeline.mkClients [] 0)
             [Stubs.passage "P1" (9 # 10); Stubs.passage "P2" (7 # 10);
              Stubs.passage "P3" (5 # 10)]); reflexivity.
  - apply (answer_invokes_the_model_with_the_prompt_of_the_passages
             Stubs.no_passages Stubs.answers_at_once "What is S3?" "KB1"
             (Pipeline.mkClients [] 0) []); reflexivity.
Defined.

(** ** The context slot is one printable line *)

Section RenderingFacts.
Import PyStr Text.

Lemma all_printable_app a b : all_printable (a +:+ b) = all_printable a && all_printable b.
Proof.
  induction a as [|c a IH]; [reflexivity|].
  rewrite append_cons. cbn [all_printable]. rewrite IH, andb_assoc. reflexivity.
Qed.

(** Whatever the character, what [repr] writes for it is printable. *)
Lemma all_printable_repr_char q c :
  q = squote \/ q = dquote -> all_printable (repr_char q c) = true.
Proof.
  intros [-> | ->];
    destruct c as [[] [] [] [] [] [] [] []]; vm_compute; reflexivity.
Qed.

Lemma all_printable_repr_chars q s :
  q = squote \/ q = dquote -> all_printable (repr_chars q s) = true.
Proof.
  intros Hq. induction s as [|c s IH]; [reflexivity|].
  cbn [repr_chars]. rewrite all_printable_app, all_printable_repr_char, IH by exact Hq.
  reflexivity.
Qed.

Lemma all_printable_py_repr s : all_printable (py_repr s) = true.
Proof.
  unfold py_repr. pose proof (repr_quote_cases s) as Hq.
  set (q := repr_quote s) in *. cbn [all_printable].
  rewrite all_printable_app, all_printable_repr_chars by exact Hq.
  destruct Hq as [-> | ->]; reflexivity.
Qed.

Lemma all_printable_concat sep l :
  all_printable sep = true ->
  Forall (fun s => all_printable s = true) l ->
  all_printable (String.concat sep l) = true.
Proof.
  intros Hsep Hl. induction Hl as [|x l Hx Hl IH]; [reflexivity|].
  destruct l as [|y l]; [exact Hx|].
  change (String.concat sep (x :: y :: l)) with (x +:+ sep +:+ String.concat sep (y :: l)).
  rewrite !all_printable_app, Hx, Hsep, IH. reflexivity.
Qed.

Lemma all_printable_py_str_list l : all_printable (py_str_list l) = true.
Proof.
  unfold py_str_list. rewrite !all_printable_app, all_printable_concat; [reflexivity..|].
  apply Forall_forall. intros s Hs. apply list_elem_of_In, in_map_iff in Hs as (x & <- & _).
  apply all_printable_py_repr.
Qed.

Lemma printable_has_no_newline s : all_printable s = true -> contains_char newline s = false.
Proof.
  induction s as [|c s IH]; [reflexivity|].
  cbn [all_printable contains_char]. intros H. apply andb_true_iff in H as [Hc Hs].
  rewrite (IH Hs), orb_false_r.
  destruct (Ascii.eqb_spec c newline) as [->|_]; [discriminate Hc | reflexivity].
Qed.

(** The first line break of a text that starts with a line without one is
    the one that follows that line. *)
Lemma find_first_newline line rest pos :
  contains_char newline line = false ->
  find_from pos nl (line +:+ nl +:+ rest) = Some (pos + String.length line).
Proof.
  revert pos. induction line as [|c line IH]; intros pos Hline.
  - change ("" +:+ nl +:+ rest) with (String newline rest).
    cbn [find_from String.prefix nl String.length].
    destruct (ascii_dec newline newline) as [_|Hne]; [|contradiction].
    destruct rest; f_equal; lia.
  - cbn [contains_char] in Hline. apply orb_false_iff in Hline as [Hc Hline].
    rewrite append_cons. cbn [find_from String.prefix nl].
    destruct (ascii_dec newline c) as [Heq|_].
    + subst c. discriminate Hc.
    + rewrite (IH (S pos) Hline). cbn [String.length]. f_equal. lia.
Qed.
End RenderingFacts.

(** X10.  Whatever the passages hold, the text put into the context slot
    consists of printable characters only and has no line break: a line break
    in a passage is written as a backslash and an [n].  The first line break
    after the opening of the context is therefore the one that follows the
    passage list. *)
Theorem context_slot_is_one_printable_line (contexts : list string) (query : string) :
  Text.all_printable (PyStr.py_str_list contexts) = true
  /\ PyStr.contains_char PyStr.newline (PyStr.py_str_list contexts) = false
  /\ Rag.prompt contexts query
     = Rag.before_context
       +:+ (PyStr.py_str_list contexts +:+ Rag.before_question +:+ query +:+ Rag.after_question)
  /\ PyStr.find PyStr.nl
       (PyStr.py_str_list contexts +:+ Rag.before_question +:+ query +:+ Rag.after_question)
     = Some (String.length (PyStr.py_str_list contexts)).
Proof.
  pose proof (all_printable_py_str_list contexts) as Hprintable.
  pose proof (printable_has_no_newline _ Hprintable) as Hline.
  split; [exact Hprintable|]. split; [exact Hline|]. split; [apply prompt_unfold|].
  unfold PyStr.find.
  unfold Rag.before_question. rewrite (append_assoc PyStr.nl).
  apply (find_first_newline _ _ 0 Hline).
Qed.

(** ** Closing braces that do not pair up *)

Section BraceCounts.
Import PyStr Text.

Lemma count_char_app b x y : count_char b (x +:+ y) = count_char b x + count_char b y.
Proof.
  induction x as [|c x IH]; [reflexivity|].
  rewrite append_cons. cbn [count_char]. rewrite IH. lia.
Qed.

(** Escaping keeps every brace and adds none. *)
Lemma count_char_repr_char q b c :
  q = squote \/ q = dquote -> b = lbrace \/ b = rbrace ->
  count_char b (repr_char q c) = if Ascii.eqb c b then 1 else 0.
Proof.
  intros [-> | ->] [-> | ->];
    destruct c as [[] [] [] [] [] [] [] []]; vm_compute; reflexivity.
Qed.

Lemma count_char_repr_chars q b s :
  q = squote \/ q = dquote -> b = lbrace \/ b = rbrace ->
  count_char b (repr_chars q s) = count_char b s.
Proof.
  intros Hq Hb. induction s as [|c s IH]; [reflexivity|].
  cbn [repr_chars count_char].
  rewrite count_char_app, count_char_repr_char, IH by assumption. reflexivity.
Qed.

Lemma count_char_py_repr b s :
  b = lbrace \/ b = rbrace -> count_char b (py_repr s) = count_char b s.
Proof.
  intros Hb. unfold py_repr. pose proof (repr_quote_cases s) as Hq.
  set (q := repr_quote s) in *. cbn [count_char].
  rewrite count_char_app, count_char_repr_chars by assumption.
  destruct Hq as [-> | ->], Hb as [-> | ->]; cbn; lia.
Qed.

Lemma count_char_concat_repr b l :
  b = lbrace \/ b = rbrace ->
  count_char b (String.concat ", " (map py_repr l)) = count_in b l.
Proof.
  intros Hb. induction l as [|x l IH]; [reflexivity|].
  destruct l as [|y l].
  - cbn [map String.concat count_in foldr]. rewrite count_char_py_repr by exact Hb. lia.
  - change (String.concat ", " (map py_repr (x :: y :: l)))
      with (py_repr x +:+ ", " +:+ String.concat ", " (map py_repr (y :: l))).
    rewrite !count_char_app, IH, count_char_py_repr by exact Hb.
    change (count_in b (x :: y :: l)) with (count_char b x + count_in b (y :: l)).
    destruct Hb as [-> | ->]; cbn [count_char Ascii.eqb Bool.eqb lbrace rbrace]; cbn; lia.
Qed.

Lemma count_char_py_str_list b l :
  b = lbrace \/ b = rbrace -> count_char b (py_str_list l) = count_in b l.
Proof.
  intros Hb. unfold py_str_list.
  rewrite !count_char_app, count_char_concat_repr by exact Hb.
  destruct Hb as [-> | ->]; cbn; lia.
Qed.

(** The braces of the prompt are those of the passages and of the query. *)
Lemma count_char_prompt b contexts query :
  b = lbrace \/ b = rbrace ->
  count_char b (Rag.prompt contexts query) = count_in b contexts + count_char b query.
Proof.
  intros Hb. rewrite prompt_unfold, !count_char_app, count_char_py_str_list by exact Hb.
  assert (count_char b Rag.before_context = 0
          /\ count_char b Rag.before_question = 0
          /\ count_char b Rag.after_question = 0) as (-> & -> & ->)
    by (destruct Hb as [-> | ->]; vm_compute; auto).
  lia.
Qed.

Variable args : list string.
Variable kwargs : gmap string string.

(** Closing braces are read in pairs: with no opening brace and an odd
    number of closing ones, one of them is left single. *)
Lemma format_literal_odd_closing n : forall s an,
  String.length s <= n ->
  count_char lbrace s = 0 ->
  Nat.odd (count_char rbrace s) = true ->
  format_literal args kwargs s an
  = Some (Raise (ValueError "Single '}' encountered in format string")).
Proof.
  induction n as [|n IH]; intros s an Hlen Hopen Hodd.
  - destruct s; [discriminate Hodd | cbn [String.length] in Hlen; lia].
  - destruct s as [|c rest]; [discriminate Hodd|].
    cbn [String.length] in Hlen. cbn [count_char] in Hopen, Hodd.
    rewrite format_literal_unfold.
    destruct (Ascii.eqb c lbrace) eqn:Hl; [cbn in Hopen; lia|].
    destruct (Ascii.eqb_spec c rbrace) as [->|Hr].
    + destruct rest as [|c' rest']; [reflexivity|].
      cbn [String.length] in Hlen. cbn [count_char] in Hopen, Hodd.
      destruct (Ascii.eqb_spec c' rbrace) as [->|Hr']; [|reflexivity].
      rewrite (IH rest' an); [reflexivity | lia | |].
      * change (Ascii.eqb rbrace lbrace) with false in Hopen. exact Hopen.
      * change (Ascii.eqb rbrace rbrace) with true in Hodd. exact Hodd.
    + rewrite (IH rest an); [reflexivity | lia | exact Hopen | exact Hodd].
Qed.
End BraceCounts.

(** X11.  When no passage and not the query holds an opening brace, and
    they hold an odd number of closing braces between them, the payload
    cell stops with the error of a single closing brace, and the model is
    not invoked. *)
Theorem odd_closing_braces_stop_before_the_model
    (generation : nat -> Rag.payload -> result Rag.response_body)
    (contexts : list string) (query : string) (calls : nat) :
  Text.count_in PyStr.lbrace contexts = 0 ->
  Text.count_char PyStr.lbrace query = 0 ->
  Nat.odd (Text.count_in PyStr.rbrace contexts + Text.count_char PyStr.rbrace query) = true ->
  Rag.message_of contexts query
    = Some (Raise (ValueError "Single '}' encountered in format string"))
  /\ Rag.generation_step generation contexts query calls
    = Some (Raise (ValueError "Single '}' encountered in format string"), calls).
Proof.
  intros Hcontexts Hquery Hodd.
  assert (Rag.message_of contexts query
          = Some (Raise (ValueError "Single '}' encountered in format string"))) as Hmessage.
  { unfold Rag.message_of, PyStr.py_format.
    apply (format_literal_odd_closing _ _ (String.length (Rag.prompt contexts query)));
      [lia | |].
    - rewrite count_char_prompt by (left; reflexivity). lia.
    - rewrite count_char_prompt by (right; reflexivity). exact Hodd. }
  split; [exact Hmessage|].
  unfold Rag.generation_step. rewrite Hmessage. reflexivity.
Qed.

Lemma odd_closing_braces_stop_before_the_model_witness :
  Rag.generation_step Stubs.answers_at_once ["use } to close"; "a }} b"] "What is S3?" 0
  = Some (Raise (ValueError "Single '}' encountered in format string"), 0).
Proof.
  apply (odd_closing_braces_stop_before_the_model
           Stubs.answers_at_once ["use } to close"; "a }} b"] "What is S3?" 0);
    reflexivity.
Defined.
